(** * Tabletop server: command processing, sequencing, dedup and fan-out

    A shallow embedding of [server.py] (class [TabletopServer]) and the
    properties of its command engine.

    Conventions of the embedding.
    - A Python [str] is a [string]; its characters are code points below 256.
    - A Python [int] is a [Z].
    - The dictionaries [players], [tokens] and [dedup] are never iterated and
      are finite maps ([gmap]).  The connection registry [clients] is
      iterated by [broadcast], so it is an insertion-ordered association
      list with the update discipline of a Python [dict].
    - A websocket is a handle [conn]; [ws.send] raises or not according to an
      oracle [up : conn -> bool] that is fixed for the duration of one
      handler step.  Every call of [ws.send] is logged as an effect.
    - [random.randint] draws from an explicit entropy argument.
    - One handler step (one received message, or one close) runs without
      interleaving with another connection's handler. *)

From stdpp Require Import base strings gmap list sorting.
From Stdlib Require Import ZArith Ascii Lia.

Open Scope string_scope.
Open Scope list_scope.
Open Scope Z_scope.

(** ** Decoded JSON values *)

Set Warnings "-register-all".

Inductive json : Type :=
| JNull
| JBool (b : bool)
| JInt (n : Z)
| JFloat (bits : Z)            (* a binary64, never inspected by the server *)
| JStr (s : string)
| JArr (items : list json)
| JObj (items : list (string * json)).   (* a dict: its items, keys distinct *)

(** ** Insertion-ordered dictionaries *)

Section Dict.
Context {V : Type}.

(** [d.get(k)] *)
Fixpoint dict_get (k : string) (d : list (string * V)) : option V :=
  match d with
  | [] => None
  | (k', v) :: d' => if String.eqb k k' then Some v else dict_get k d'
  end.

(** [d[k] = v]: an existing key keeps its position, a new key goes last. *)
Fixpoint dict_set (k : string) (v : V) (d : list (string * V)) : list (string * V) :=
  match d with
  | [] => [(k, v)]
  | (k', v') :: d' =>
      if String.eqb k k' then (k, v) :: d' else (k', v') :: dict_set k v d'
  end.

(** [d.pop(k, None)], the result discarded. *)
Fixpoint dict_pop (k : string) (d : list (string * V)) : list (string * V) :=
  match d with
  | [] => []
  | (k', v') :: d' =>
      if String.eqb k k' then d' else (k', v') :: dict_pop k d'
  end.

(** The keys of a dictionary are pairwise distinct. *)
Definition dict_wf (d : list (string * V)) : Prop := NoDup (d.*1).
End Dict.

(** ** [str.strip()] *)

(** Whitespace code points below 256, as [str.isspace] has them. *)
Definition is_space (a : ascii) : bool :=
  let n := nat_of_ascii a in
  ((9 <=? n) && (n <=? 13) || (28 <=? n) && (n <=? 32) || (n =? 133) || (n =? 160))%nat.

Fixpoint lstrip (s : string) : string :=
  match s with
  | EmptyString => EmptyString
  | String a s' => if is_space a then lstrip s' else s
  end.

Fixpoint rstrip (s : string) : string :=
  match s with
  | EmptyString => EmptyString
  | String a s' =>
      match rstrip s' with
      | EmptyString => if is_space a then EmptyString else String a EmptyString
      | r => String a r
      end
  end.

Definition strip (s : string) : string := rstrip (lstrip s).

(** Truthiness of a [str]. *)
Definition nonempty (s : string) : bool := negb (String.eqb s "").

(** ** Data model *)

Record Player := { client_id : string; name : string; hp : Z }.

Record GameState := {
  players : gmap string Player;
  tokens : gmap string (gmap string json)   (* token_id -> {"x": int, "y": int} *)
}.

Abbreviation conn := nat.

Record Server := {
  clients : list (string * conn);   (* client_id -> ws *)
  seq : Z;
  state : GameState;
  dedup : gmap string Z             (* (client_id:event_id) -> seq *)
}.

(** [TabletopServer.__init__] *)
Definition init : Server :=
  {| clients := []; seq := 0; state := {| players := ∅; tokens := ∅ |}; dedup := ∅ |}.

(** The event dictionary built by [handle_command]; its ["type"] entry is
    the constructor [MEvent] below. *)
Record Event := {
  ev_seq : Z;
  ev_event_id : string;
  ev_event_type : string;
  ev_payload : list (string * json)
}.

(** Server-to-client messages. *)
Inductive msg : Type :=
| MEvent (e : Event)
| MError (message : string).

(** [make_error] *)
Definition make_error (message : string) : msg := MError message.

(** What a handler step does to the outside world. *)
Inductive effect : Type :=
| Reply (ws : conn) (m : msg) (ok : bool)                      (* handler: [ws.send] *)
| ErrorTo (cid : string) (ws : conn) (m : msg) (ok : bool)     (* [send_error_to] *)
| Broadcast (m : msg) (attempts : list (string * conn * bool)). (* [broadcast] *)

(** A validated command envelope. *)
Record Command := {
  cmd_client_id : string;
  cmd_event_id : string;
  cmd_command : string;
  cmd_payload : list (string * json)
}.

(** ** The server's methods *)

Definition set_clients (s : Server) (c : list (string * conn)) : Server :=
  {| clients := c; seq := seq s; state := state s; dedup := dedup s |}.

Definition set_players (g : GameState) (p : gmap string Player) : GameState :=
  {| players := p; tokens := tokens g |}.

Definition set_tokens (g : GameState) (t : gmap string (gmap string json)) : GameState :=
  {| players := players g; tokens := t |}.

(** [next_seq] *)
Definition next_seq (s : Server) : Server * Z :=
  ({| clients := clients s; seq := seq s + 1; state := state s; dedup := dedup s |},
   seq s + 1).

(** [broadcast]: one send per registry entry in dictionary order; the keys
    whose send raised are collected and popped afterwards. *)
Definition broadcast (up : conn -> bool) (s : Server) (m : msg) : Server * list effect :=
  let attempts := map (fun e : string * conn => (e.1, e.2, up e.2)) (clients s) in
  let dead := map (fun a : string * conn * bool => a.1.1)
                  (filter (fun a : string * conn * bool => a.2 = false) attempts) in
  (set_clients s (foldl (fun c cid => dict_pop cid c) (clients s) dead),
   [Broadcast m attempts]).

(** [send_error_to]: nothing happens when the client is not registered, and
    a failing send is swallowed. *)
Definition send_error_to (up : conn -> bool) (s : Server) (cid message : string)
  : list effect :=
  match dict_get cid (clients s) with
  | None => []
  | Some ws => [ErrorTo cid ws (make_error message) (up ws)]
  end.

(** [random.randint(a, b)]: some integer N with a <= N <= b, here chosen by
    the entropy handed in. *)
Definition randint (entropy a b : Z) : Z := a + entropy mod (b - a + 1).

(** The integer a value passing [isinstance(v, int)] stands for; [bool] is a
    subclass of [int] in Python. *)
Definition as_int (v : json) : option Z :=
  match v with
  | JInt n => Some n
  | JBool b => Some (if b then 1 else 0)
  | _ => None
  end.

(** [handle_command].  [reject] is a branch's [send_error_to; return];
    [emit] is the common tail that records the dedup entry and broadcasts
    the event the branch has built. *)
Definition handle_command (up : conn -> bool) (entropy : Z) (s0 : Server) (cmd : Command)
  : Server * list effect :=
  let cid := cmd_client_id cmd in
  let event_id := cmd_event_id cmd in
  let command := cmd_command cmd in
  let payload := cmd_payload cmd in
  let dedup_key := cid +:+ ":" +:+ event_id in
  if bool_decide (is_Some (dedup s0 !! dedup_key)) then (s0, []) (* already processed *)
  else
    let '(s, seq') := next_seq s0 in
    let reject (message : string) := (s, send_error_to up s cid message) in
    let emit (g : GameState) (event_type : string) (event_payload : list (string * json)) :=
      let event := {| ev_seq := seq'; ev_event_id := event_id;
                      ev_event_type := event_type; ev_payload := event_payload |} in
      broadcast up
        {| clients := clients s; seq := seq s; state := g;
           dedup := <[dedup_key := seq']> (dedup s) |}
        (MEvent event) in
    if String.eqb command "JOIN" then
      match dict_get "name" payload with
      | Some (JStr nm) =>
          if nonempty (strip nm) then
            let p :=
              match players (state s) !! cid with
              | None => {| client_id := cid; name := strip nm; hp := 20 |}
              | Some p => {| client_id := client_id p; name := strip nm; hp := hp p |}
              end in
            emit (set_players (state s) (<[cid := p]> (players (state s))))
                 "JOIN" [("client_id", JStr cid); ("name", JStr (name p))]
          else reject "JOIN requires payload.name as non-empty string."
      | _ => reject "JOIN requires payload.name as non-empty string."
      end
    else if String.eqb command "CHAT" then
      match dict_get "text" payload with
      | Some (JStr text) =>
          if nonempty (strip text) then
            emit (state s) "CHAT" [("client_id", JStr cid); ("text", JStr text)]
          else reject "CHAT requires payload.text as non-empty string."
      | _ => reject "CHAT requires payload.text as non-empty string."
      end
    else if String.eqb command "ROLL_DICE" then
      match dict_get "sides" payload with
      | Some sides =>
          match as_int sides with
          | Some n =>
              if (n <? 2) || (n >? 10000) then
                reject "ROLL_DICE requires payload.sides as int >=2."
              else
                let result := randint entropy 1 n in
                emit (state s) "ROLL_DICE"
                     [("client_id", JStr cid); ("sides", sides); ("result", JInt result)]
          | None => reject "ROLL_DICE requires payload.sides as int >=2."
          end
      | None => reject "ROLL_DICE requires payload.sides as int >=2."
      end
    else if String.eqb command "MOVE_TOKEN" then
      match dict_get "token_id" payload with
      | Some (JStr token_id) =>
          if nonempty token_id then
            match dict_get "x" payload, dict_get "y" payload with
            | Some x, Some y =>
                match as_int x, as_int y with
                | Some _, Some _ =>
                    emit (set_tokens (state s)
                            (<[token_id := {[ "x" := x; "y" := y ]}]> (tokens (state s))))
                         "MOVE_TOKEN" [("token_id", JStr token_id); ("x", x); ("y", y)]
                | _, _ => reject "MOVE_TOKEN requires payload.x and payload.y as integers."
                end
            | _, _ => reject "MOVE_TOKEN requires payload.x and payload.y as integers."
            end
          else reject "MOVE_TOKEN requires payload.token_id as non-empty string."
      | _ => reject "MOVE_TOKEN requires payload.token_id as non-empty string."
      end
    else if String.eqb command "SET_HP" then
      match dict_get "target_id" payload with
      | Some (JStr target_id) =>
          if nonempty target_id then
            match dict_get "delta" payload with
            | Some delta =>
                match as_int delta with
                | Some d =>
                    let p :=
                      match players (state s) !! target_id with
                      | None => {| client_id := target_id; name := target_id; hp := 20 |}
                      | Some p => p
                      end in
                    let p := {| client_id := client_id p; name := name p;
                                hp := Z.max 0 (hp p + d) |} in
                    emit (set_players (state s) (<[target_id := p]> (players (state s))))
                         "SET_HP"
                         [("target_id", JStr target_id); ("delta", delta); ("new_hp", JInt (hp p))]
                | None => reject "SET_HP requires payload.delta as integer."
                end
            | None => reject "SET_HP requires payload.delta as integer."
            end
          else reject "SET_HP requires payload.target_id as non-empty string."
      | _ => reject "SET_HP requires payload.target_id as non-empty string."
      end
    else reject ("Unknown command: " +:+ command).

(** [isinstance(v, str) and v]: a non-empty string. *)
Definition nonempty_str (v : option json) : bool :=
  match v with
  | Some (JStr s) => nonempty s
  | _ => false
  end.

(** [validate_command]: the reason the envelope is refused, if it is. *)
Definition validate_command (obj : json) : option string :=
  match obj with
  | JObj o =>
      if negb match dict_get "type" o with
              | Some (JStr t) => String.eqb t "command"
              | _ => false
              end
      then Some "Expected type='command'."
      else if negb (nonempty_str (dict_get "client_id" o))
      then Some "Missing/invalid client_id."
      else if negb (nonempty_str (dict_get "event_id" o))
      then Some "Missing/invalid event_id."
      else if negb (nonempty_str (dict_get "command" o))
      then Some "Missing/invalid command."
      else match dict_get "payload" o with
           | Some (JObj _) => None
           | _ => Some "Missing/invalid payload (must be object)."
           end
  | _ => Some "Message must be a JSON object."
  end.

(** The four subscripts at the head of [handle_command]. *)
Definition command_of (obj : json) : option Command :=
  match obj with
  | JObj o =>
      match dict_get "client_id" o, dict_get "event_id" o,
            dict_get "command" o, dict_get "payload" o with
      | Some (JStr c), Some (JStr e), Some (JStr k), Some (JObj p) =>
          Some {| cmd_client_id := c; cmd_event_id := e; cmd_command := k; cmd_payload := p |}
      | _, _, _, _ => None
      end
  | _ => None
  end.

(** ** The connection handler *)

(** The shared server together with [registered_client_id], the local
    variable of each running handler. *)
Record World := {
  server : Server;
  registered : gmap nat string
}.

Definition boot : World := {| server := init; registered := ∅ |}.

(** The [finally] block of [handler]; the handler then ends. *)
Definition handler_close (w : World) (ws : conn) : World :=
  let s := server w in
  {| server :=
       match registered w !! ws with
       | Some rcid =>
           if nonempty rcid &&
              match dict_get rcid (clients s) with
              | Some ws' => Nat.eqb ws' ws
              | None => false
              end
           then set_clients s (dict_pop rcid (clients s))
           else s
       | None => s
       end;
     registered := delete ws (registered w) |}.

(** One turn of the [async for] loop of [handler] on connection [ws];
    [raw] is [None] when [json.loads] raises.  A raising [ws.send] leaves the
    loop through the [finally] block. *)
Definition handler_message (up : conn -> bool) (entropy : Z) (w : World) (ws : conn)
    (raw : option json) : World * list effect :=
  let reply (m : msg) :=
    if up ws then (w, [Reply ws m true]) else (handler_close w ws, [Reply ws m false]) in
  match raw with
  | None => reply (make_error "Invalid JSON.")
  | Some obj =>
      match validate_command obj with
      | Some err => reply (make_error err)
      | None =>
          match command_of obj with
          | Some cmd =>
              let cid := cmd_client_id cmd in
              let s := set_clients (server w) (dict_set cid ws (clients (server w))) in
              let '(s', eff) := handle_command up entropy s cmd in
              ({| server := s'; registered := <[ws := cid]> (registered w) |}, eff)
          | None => (w, [])
          end
      end
  end.

(** What the transport delivers to the server. *)
Inductive input : Type :=
| Message (ws : conn) (raw : option json)
| Closed (ws : conn).

(** An input together with the environment it is handled in. *)
Record step := { inp : input; up : conn -> bool; entropy : Z }.

Definition handler (w : World) (st : step) : World * list effect :=
  match inp st with
  | Message ws raw => handler_message (up st) (entropy st) w ws raw
  | Closed ws => (handler_close w ws, [])
  end.

(** The server over a whole sequence of inputs. *)
Fixpoint run (w : World) (steps : list step) : World * list effect :=
  match steps with
  | [] => (w, [])
  | st :: rest =>
      let '(w1, e1) := handler w st in
      let '(w2, e2) := run w1 rest in
      (w2, e1 ++ e2)
  end.

(** ** Observations on effect traces *)

(** The number of per-command rejections, one [send_error_to] each. *)
Fixpoint rejected_count (tr : list effect) : nat :=
  match tr with
  | [] => 0%nat
  | ErrorTo _ _ _ _ :: tr' => S (rejected_count tr')
  | _ :: tr' => rejected_count tr'
  end.

(** The [seq] of every broadcast event, in order. *)
Fixpoint broadcast_seqs (tr : list effect) : list Z :=
  match tr with
  | [] => []
  | Broadcast (MEvent e) _ :: tr' => ev_seq e :: broadcast_seqs tr'
  | _ :: tr' => broadcast_seqs tr'
  end.

Definition is_broadcast (e : effect) : bool :=
  match e with Broadcast _ _ => true | _ => false end.

Definition is_error_to (e : effect) : bool :=
  match e with ErrorTo _ _ _ _ => true | _ => false end.

(** ** Sample messages *)

Definition envelope (cid eid command : string) (payload : list (string * json)) : json :=
  JObj [("type", JStr "command"); ("client_id", JStr cid); ("event_id", JStr eid);
        ("command", JStr command); ("payload", JObj payload)].

Definition all_up : conn -> bool := fun _ => true.

Definition recv (ws : conn) (obj : json) : step :=
  {| inp := Message ws (Some obj); up := all_up; entropy := 0 |}.

(** ** Vocabulary of the properties *)

(** [f"{client_id}:{event_id}"] *)
Definition dedup_key (cmd : Command) : string :=
  cmd_client_id cmd +:+ ":" +:+ cmd_event_id cmd.

(** The per-command validation of [handle_command], branch by branch: the
    conjunction of the guards a payload has to pass for its command. *)
Definition valid_payload (cmd : Command) : bool :=
  let command := cmd_command cmd in
  let payload := cmd_payload cmd in
  if String.eqb command "JOIN" then
    match dict_get "name" payload with
    | Some (JStr nm) => nonempty (strip nm)
    | _ => false
    end
  else if String.eqb command "CHAT" then
    match dict_get "text" payload with
    | Some (JStr text) => nonempty (strip text)
    | _ => false
    end
  else if String.eqb command "ROLL_DICE" then
    match dict_get "sides" payload ≫= as_int with
    | Some n => (2 <=? n) && (n <=? 10000)
    | None => false
    end
  else if String.eqb command "MOVE_TOKEN" then
    nonempty_str (dict_get "token_id" payload)
    && bool_decide (is_Some (dict_get "x" payload ≫= as_int))
    && bool_decide (is_Some (dict_get "y" payload ≫= as_int))
  else if String.eqb command "SET_HP" then
    nonempty_str (dict_get "target_id" payload)
    && bool_decide (is_Some (dict_get "delta" payload ≫= as_int))
  else false.

(** What an accepted command does to the game state: the writes of its
    branch of [handle_command]. *)
Definition apply_effect (g : GameState) (cmd : Command) : GameState :=
  let command := cmd_command cmd in
  let payload := cmd_payload cmd in
  let cid := cmd_client_id cmd in
  if String.eqb command "JOIN" then
    match dict_get "name" payload with
    | Some (JStr nm) =>
        set_players g
          (<[cid := match players g !! cid with
                    | None => {| client_id := cid; name := strip nm; hp := 20 |}
                    | Some p => {| client_id := client_id p; name := strip nm; hp := hp p |}
                    end]> (players g))
    | _ => g
    end
  else if String.eqb command "CHAT" then g
  else if String.eqb command "ROLL_DICE" then g
  else if String.eqb command "MOVE_TOKEN" then
    match dict_get "token_id" payload, dict_get "x" payload, dict_get "y" payload with
    | Some (JStr token_id), Some x, Some y =>
        set_tokens g (<[token_id := {[ "x" := x; "y" := y ]}]> (tokens g))
    | _, _, _ => g
    end
  else if String.eqb command "SET_HP" then
    match dict_get "target_id" payload, dict_get "delta" payload ≫= as_int with
    | Some (JStr target_id), Some d =>
        let p := default {| client_id := target_id; name := target_id; hp := 20 |}
                         (players g !! target_id) in
        set_players g
          (<[target_id := {| client_id := client_id p; name := name p;
                             hp := Z.max 0 (hp p + d) |}]> (players g))
    | _, _ => g
    end
  else g.

(** The step delivers a message whose envelope is valid and holds [cmd],
    on connection [ws]. *)
Definition carries (st : step) (ws : conn) (cmd : Command) : Prop :=
  exists obj, inp st = Message ws (Some obj)
              ∧ validate_command obj = None ∧ command_of obj = Some cmd.

(** The server once [next_seq] has run. *)
Definition reserved (s : Server) : Server := (next_seq s).1.

(** The server of an accepted command just before [broadcast]: the sequence
    number is taken, the game state is [g], the dedup entry is recorded. *)
Definition recorded (s : Server) (cmd : Command) (g : GameState) : Server :=
  {| clients := clients s; seq := seq s + 1; state := g;
     dedup := <[dedup_key cmd := seq s + 1]> (dedup s) |}.

Definition event_for (s : Server) (cmd : Command) (event_type : string)
    (payload : list (string * json)) : Event :=
  {| ev_seq := seq s + 1; ev_event_id := cmd_event_id cmd;
     ev_event_type := event_type; ev_payload := payload |}.

(** The three ways [handle_command] can end. *)
Inductive outcome (up : conn -> bool) (s : Server) (cmd : Command)
  : Server * list effect -> Prop :=
| out_duplicate :
    is_Some (dedup s !! dedup_key cmd) ->
    outcome up s cmd (s, [])
| out_rejected message :
    dedup s !! dedup_key cmd = None ->
    valid_payload cmd = false ->
    outcome up s cmd
      (reserved s, send_error_to up (reserved s) (cmd_client_id cmd) message)
| out_accepted payload :
    dedup s !! dedup_key cmd = None ->
    valid_payload cmd = true ->
    outcome up s cmd
      (broadcast up (recorded s cmd (apply_effect (state s) cmd))
         (MEvent (event_for s cmd (cmd_command cmd) payload))).

(** The three shapes of a handler step: nothing the sequencer sees, a
    rejected command, an accepted command. *)
Inductive handled (w : World) (st : step) : World * list effect -> Prop :=
| handled_quiet w' tr :
    seq (server w') = seq (server w) ->
    state (server w') = state (server w) ->
    dedup (server w') = dedup (server w) ->
    Forall (fun e => is_broadcast e = false ∧ is_error_to e = false) tr ->
    handled w st (w', tr)
| handled_rejected w' cmd ws message ok :
    carries st ws cmd ->
    seq (server w') = seq (server w) + 1 ->
    state (server w') = state (server w) ->
    dedup (server w') = dedup (server w) ->
    handled w st (w', [ErrorTo (cmd_client_id cmd) ws (MError message) ok])
| handled_accepted w' cmd ws payload attempts :
    carries st ws cmd ->
    seq (server w') = seq (server w) + 1 ->
    state (server w') = apply_effect (state (server w)) cmd ->
    dedup (server w') = <[dedup_key cmd := seq (server w) + 1]> (dedup (server w)) ->
    handled w st
      (w', [Broadcast (MEvent (event_for (server w) cmd (cmd_command cmd) payload)) attempts]).

(** ** Further vocabulary and sample inputs *)

(** The keys [broadcast] collects in [dead]. *)
Definition dead_keys (up : conn -> bool) (c : list (string * conn)) : list string :=
  (filter (fun e : string * conn => up e.2 = false) c).*1.



(** The server [handle_command] runs on: [ws] is registered first. *)
Definition with_registration (w : World) (ws : conn) (cmd : Command) : Server :=
  set_clients (server w) (dict_set (cmd_client_id cmd) ws (clients (server w))).

(** Some event was handed to [broadcast]. *)
Definition has_broadcast (tr : list effect) : Prop :=
  Exists (fun e => is_broadcast e = true) tr.

(** Client "a" joins on connection 1; client "b" chats on connection 2;
    connection 3 sends a JOIN under the pair (a, e1) again. *)
Definition join_ann : step := recv 1 (envelope "a" "e1" "JOIN" [("name", JStr "Ann")]).
Definition chat_hi : step := recv 2 (envelope "b" "e1" "CHAT" [("text", JStr "hi")]).
Definition join_bob_same_pair : step :=
  recv 3 (envelope "a" "e1" "JOIN" [("name", JStr "Bob")]).

(** Two commands that fail per-command validation. *)
Definition join_blank : step := recv 1 (envelope "a" "e1" "JOIN" [("name", JStr "  ")]).
Definition unknown_command : step := recv 1 (envelope "a" "e1" "DANCE" []).






Definition move (eid : string) (x y : Z) : Command :=
  {| cmd_client_id := "a"; cmd_event_id := eid; cmd_command := "MOVE_TOKEN";
     cmd_payload := [("token_id", JStr "pawn"); ("x", JInt x); ("y", JInt y)] |}.

Definition join_padded : Command :=
  {| cmd_client_id := "a"; cmd_event_id := "e1"; cmd_command := "JOIN";
     cmd_payload := [("name", JStr "  Bob ")] |}.



Definition second_conn : step := recv 2 (envelope "a" "e2" "CHAT" [("text", JStr "back")]).
Definition first_closes : step := {| inp := Closed 1; up := all_up; entropy := 0 |}.

(** ** Vocabulary of the further properties *)

(** Every player is stored under its own, non-empty id and has a non-empty
    name. *)
Definition players_ok (g : GameState) : Prop :=
  forall k p, players g !! k = Some p -> client_id p = k ∧ k ≠ "" ∧ name p ≠ "".

(** Every token has a non-empty id and is a record of exactly x and y, both
    passing [isinstance(_, int)]. *)
Definition tokens_ok (g : GameState) : Prop :=
  forall t r, tokens g !! t = Some r ->
    t ≠ "" ∧ exists x y, r = {[ "x" := x; "y" := y ]} ∧ is_Some (as_int x) ∧ is_Some (as_int y).

(** Every registered client id is non-empty. *)
Definition keys_nonempty (c : list (string * conn)) : Prop :=
  Forall (fun e : string * conn => e.1 ≠ "") c.

(** No send succeeds. *)
Definition down : conn -> bool := fun _ => false.

(** ** Messages on the wire *)

(** The dictionary the server serialises for a message, as a client decodes
    it: the event built by [handle_command], or [make_error]'s. *)
Definition wire (m : msg) : json :=
  match m with
  | MEvent e =>
      JObj [("type", JStr "event"); ("seq", JInt (ev_seq e));
            ("event_id", JStr (ev_event_id e)); ("event_type", JStr (ev_event_type e));
            ("payload", JObj (ev_payload e))]
  | MError message => JObj [("type", JStr "error"); ("message", JStr message)]
  end.

(** The messages an effect puts on connection [ws]: one per successful send. *)
Definition delivered_by (ws : conn) (e : effect) : list msg :=
  match e with
  | Reply ws' m ok => if ok && Nat.eqb ws' ws then [m] else []
  | ErrorTo _ ws' m ok => if ok && Nat.eqb ws' ws then [m] else []
  | Broadcast m attempts =>
      flat_map (fun a : string * conn * bool => if a.2 && Nat.eqb a.1.2 ws then [m] else [])
               attempts
  end.

Definition delivered (ws : conn) (tr : list effect) : list msg :=
  flat_map (delivered_by ws) tr.

(** ** The client ([client.py]) *)

Module Client.

(** [str.startswith] *)
Fixpoint startswith (s p : string) : bool :=
  match p, s with
  | EmptyString, _ => true
  | String a p', String b s' => Ascii.eqb a b && startswith s' p'
  | String _ _, EmptyString => false
  end.

(** The slice [s[n:]] *)
Fixpoint drop_chars (n : nat) (s : string) : string :=
  match n, s with
  | O, _ => s
  | S n', String _ s' => drop_chars n' s'
  | S _, EmptyString => EmptyString
  end.

(** [str.split()] with no argument: the maximal runs of non-whitespace, in
    order; [cur] is the run being read. *)
Fixpoint split_from (cur : string) (s : string) : list string :=
  match s with
  | EmptyString => if nonempty cur then [cur] else []
  | String a s' =>
      if is_space a
      then (if nonempty cur then cur :: split_from EmptyString s' else split_from EmptyString s')
      else split_from (cur +:+ String a EmptyString) s'
  end.

Definition split (s : string) : list string := split_from EmptyString s.

(** [ClientState] *)
Record ClientState := { last_seq_seen : Z; name : option string }.

(** [ClientState.__init__] *)
Definition initial : ClientState := {| last_seq_seen := 0; name := None |}.

(** The message [send_cmd] serialises; [event_id] is the value
    [make_event_id] has drawn. *)
Definition send_cmd (client_id event_id command : string) (payload : list (string * json))
  : json :=
  JObj [("type", JStr "command"); ("client_id", JStr client_id); ("event_id", JStr event_id);
        ("command", JStr command); ("payload", JObj payload)].

(** What the client prints.  A line is kept as the values it is formatted
    from, not as text. *)
Inductive printed : Type :=
| InvalidJson                                   (* "<< invalid JSON from server >>" *)
| ErrorLine (message : option json)             (* f"ERROR: {obj.get('message')}" *)
| EventLine (q event_type payload : json)       (* [pretty_event] *)
| UnknownLine (obj : json).                     (* f"<< unknown message: {obj} >>" *)

(** [pretty_event] *)
Definition pretty_event (evt : list (string * json)) : printed :=
  EventLine (default (JStr "?") (dict_get "seq" evt))
            (default (JStr "UNKNOWN") (dict_get "event_type" evt))
            (default (JObj []) (dict_get "payload" evt)).

(** [obj.get("type") == t] *)
Definition type_is (o : list (string * json)) (t : string) : bool :=
  match dict_get "type" o with
  | Some (JStr t') => String.eqb t' t
  | _ => false
  end.

(** One turn of the loop of [receiver]; [raw] is [None] when [json.loads]
    raises.  The result is [None] when the turn raises: a decoded value that
    is no object has no [get].  [last_seq_seen] holds the value of
    [max(last_seq_seen, seq)]. *)
Definition receive (st : ClientState) (raw : option json) : option (ClientState * printed) :=
  match raw with
  | None => Some (st, InvalidJson)
  | Some (JObj o) =>
      if type_is o "error" then Some (st, ErrorLine (dict_get "message" o))
      else if type_is o "event" then
        Some (match dict_get "seq" o ≫= as_int with
              | Some q => {| last_seq_seen := Z.max (last_seq_seen st) q; name := name st |}
              | None => st
              end,
              pretty_event o)
      else Some (st, UnknownLine (JObj o))
  | Some _ => None
  end.

(** [receiver] over the messages that arrive: the state it ends in, what it
    printed, and whether it is still running. *)
Fixpoint receiver (st : ClientState) (raws : list (option json))
  : ClientState * list printed * bool :=
  match raws with
  | [] => (st, [], true)
  | raw :: rest =>
      match receive st raw with
      | None => (st, [], false)
      | Some (st1, line) =>
          let '(st2, lines, alive) := receiver st1 rest in
          (st2, line :: lines, alive)
      end
  end.

(** What one line of input leads to. *)
Inductive action : Type :=
| Quit                                                      (* [return] *)
| Continue (prints : list string)                           (* [continue], after printing *)
| Send (command : string) (payload : list (string * json)). (* [send_cmd], then [continue] *)

Section UserInput.
(** Python's [int(str)]; [None] stands for [ValueError]. *)
Variable int : string -> option Z.

(** One turn of the loop of [user_input_loop] on the line [readline] gave;
    the empty line is the end of input. *)
Definition user_line (st : ClientState) (line : string) : ClientState * action :=
  if negb (nonempty line) then (st, Quit)
  else
    let line := strip line in
    if negb (nonempty line) then (st, Continue [])
    else if startswith line "/quit" then (st, Quit)
    else if startswith line "/join " then
      let nm := strip (drop_chars 6 line) in
      ({| last_seq_seen := last_seq_seen st; name := Some nm |},
       Send "JOIN" [("name", JStr nm)])
    else if startswith line "/chat " then
      let text := strip (drop_chars 6 line) in
      (st, Send "CHAT" [("text", JStr text)])
    else if startswith line "/roll " then
      let arg := strip (drop_chars 6 line) in
      match int arg with
      | None => (st, Continue ["Usage: /roll <int sides>"])
      | Some sides => (st, Send "ROLL_DICE" [("sides", JInt sides)])
      end
    else if startswith line "/move " then
      match split line with
      | [_; token_id; px; py] =>
          match int px with
          | Some x =>
              match int py with
              | Some y =>
                  (st, Send "MOVE_TOKEN"
                         [("token_id", JStr token_id); ("x", JInt x); ("y", JInt y)])
              | None => (st, Continue ["x and y must be integers"])
              end
          | None => (st, Continue ["x and y must be integers"])
          end
      | _ => (st, Continue ["Usage: /move <token_id> <x> <y>"])
      end
    else if startswith line "/hp " then
      match split line with
      | [_; target_id; pd] =>
          match int pd with
          | Some delta =>
              (st, Send "SET_HP" [("target_id", JStr target_id); ("delta", JInt delta)])
          | None => (st, Continue ["delta must be an integer"])
          end
      | [_; _; _; _] => (st, Continue ["Usage: /hp <target_id> <delta>"])
      | _ => (st, Continue ["Usage: /hp <target_id> <delta>";
                            "   or: /hp <target_id> <delta>  (delta can be negative)"])
      end
    else (st, Continue ["Unknown command. Try /join, /chat, /roll, /move, /hp, /quit"]).
End UserInput.

End Client.

(** Decimal numerals with an optional minus sign, a fragment of what
    [int(str)] reads; used in examples only. *)
Fixpoint decimal_digits (acc : Z) (s : string) : option Z :=
  match s with
  | EmptyString => Some acc
  | String a s' =>
      let n := nat_of_ascii a in
      if ((48 <=? n) && (n <=? 57))%nat
      then decimal_digits (10 * acc + Z.of_nat (n - 48)) s'
      else None
  end.

Definition decimal (s : string) : option Z :=
  match s with
  | EmptyString => None
  | String "-"%char (String a s') => Z.opp <$> decimal_digits 0 (String a s')
  | _ => decimal_digits 0 s
  end.

(** ** Vocabulary of the client's properties *)

(** Nothing but whitespace. *)
Fixpoint blank (s : string) : bool :=
  match s with
  | EmptyString => true
  | String a s' => is_space a && blank s'
  end.

(** The message is an event whose [seq] has the integer value [q]. *)
Definition event_with_seq (raw : option json) (q : Z) : Prop :=
  exists o, raw = Some (JObj o)
            ∧ Client.type_is o "event" = true ∧ dict_get "seq" o ≫= as_int = Some q.

(** The server sends errors one to one and broadcasts events only. *)
Definition well_shaped (e : effect) : Prop :=
  match e with
  | Reply _ (MError _) _ => True
  | ErrorTo _ _ (MError _) _ => True
  | Broadcast (MEvent _) _ => True
  | _ => False
  end.


(** * Properties *)

Ltac rewrite_guards :=
  repeat match goal with
         | H : dict_get _ _ = _ |- _ => rewrite H
         | H : String.eqb _ _ = _ |- _ => rewrite H
         | H : nonempty _ = _ |- _ => rewrite H
         | H : as_int _ = _ |- _ => rewrite H
         | H : players _ !! _ = _ |- _ => rewrite H
         end.

Ltac range_guard :=
  repeat match goal with
         | H : (_ <? _) || (_ >? _) = _ |- _ =>
             rewrite Z.gtb_ltb in H;
             first [ apply orb_true_iff in H | apply orb_false_iff in H ];
             rewrite ?Z.ltb_lt, ?Z.ltb_ge in H
         end;
  rewrite ?andb_true_iff, ?andb_false_iff, ?Z.leb_le, ?Z.leb_gt; lia.

Lemma out_accepted_eq up s cmd g event_type payload :
  dedup s !! dedup_key cmd = None ->
  valid_payload cmd = true ->
  apply_effect (state s) cmd = g ->
  cmd_command cmd = event_type ->
  outcome up s cmd
    (broadcast up (recorded s cmd g) (MEvent (event_for s cmd event_type payload))).
Proof. intros ?? <- <-. by apply out_accepted. Qed.

Lemma handle_command_outcome up entropy s cmd :
  outcome up s cmd (handle_command up entropy s cmd).
Proof.
  unfold handle_command; fold (dedup_key cmd).
  case_bool_decide as Hd; [by apply out_duplicate|].
  apply eq_None_not_Some in Hd.
  cbn zeta. unfold next_seq. cbn -[String.eqb dedup_key].
  repeat case_match; simplify_eq/=;
    first [ eapply (out_rejected up s cmd); first done
          | eapply (out_accepted_eq up s cmd); first done ];
    try (by apply String.eqb_eq);
    unfold valid_payload, apply_effect; rewrite_guards; cbn -[String.eqb];
    rewrite_guards; cbn -[String.eqb];
    first [ done | range_guard | apply andb_false_r ].
Qed.

(** ** Dictionaries *)

Section DictFacts.
Context {V : Type}.
Implicit Types (d : list (string * V)) (k : string) (v : V).

Lemma dict_get_set_eq k v d : dict_get k (dict_set k v d) = Some v.
Proof.
  induction d as [|[k' v'] d IH]; cbn -[String.eqb].
  - by rewrite String.eqb_refl.
  - destruct (String.eqb_spec k k') as [->|Hne]; cbn -[String.eqb].
    + by rewrite String.eqb_refl.
    + by apply String.eqb_neq in Hne as ->.
Qed.

Lemma dict_get_set_ne k k' v d :
  k ≠ k' -> dict_get k' (dict_set k v d) = dict_get k' d.
Proof.
  intros Hne. induction d as [|[k1 v1] d IH]; cbn -[String.eqb].
  - assert (k' ≠ k) as ->%String.eqb_neq by congruence. done.
  - destruct (String.eqb_spec k k1) as [->|Hne1]; cbn -[String.eqb].
    + assert (k' ≠ k1) as ->%String.eqb_neq by congruence. done.
    + by rewrite IH.
Qed.

Lemma dict_get_elem_of k v d : dict_get k d = Some v -> (k, v) ∈ d.
Proof.
  induction d as [|[k' v'] d IH]; cbn -[String.eqb]; [done|].
  destruct (String.eqb_spec k k') as [->|Hne]; intros Hg.
  - simplify_eq. left.
  - right. auto.
Qed.

Lemma dict_get_None k d : dict_get k d = None <-> k ∉ d.*1.
Proof.
  induction d as [|[k' v'] d IH]; cbn -[String.eqb].
  - split; [intros _; apply not_elem_of_nil | done].
  - rewrite not_elem_of_cons.
    destruct (String.eqb_spec k k') as [->|Hne].
    + split; [done | by intros [[] _]].
    + rewrite IH. tauto.
Qed.

Lemma elem_of_dict_get k v d : dict_wf d -> (k, v) ∈ d -> dict_get k d = Some v.
Proof.
  unfold dict_wf. induction d as [|[k' v'] d IH]; cbn -[String.eqb].
  - by intros _ ?%elem_of_nil.
  - intros [Hk Hd]%NoDup_cons [Heq|Hin]%elem_of_cons.
    + simplify_eq. by rewrite String.eqb_refl.
    + destruct (String.eqb_spec k k') as [->|Hne]; [|by apply IH].
      destruct Hk. by apply (list_elem_of_fmap_2 fst) in Hin.
Qed.

Lemma dict_pop_subseteq k d : dict_pop k d ⊆ d.
Proof.
  induction d as [|[k' v'] d IH]; cbn -[String.eqb]; [done|].
  destruct (String.eqb k k'); intros e He; [by right|].
  apply elem_of_cons in He as [->|He]; [left | right; by apply IH].
Qed.

Lemma dict_pop_keys_sublist k d : sublist (dict_pop k d).*1 (d.*1).
Proof.
  induction d as [|[k' v'] d IH]; cbn -[String.eqb]; [done|].
  destruct (String.eqb k k'); cbn; [by apply sublist_cons | by apply sublist_skip].
Qed.

Lemma dict_pop_wf k d : dict_wf d -> dict_wf (dict_pop k d).
Proof. unfold dict_wf. intros Hd. eapply sublist_NoDup; [exact Hd | apply dict_pop_keys_sublist]. Qed.

Lemma dict_set_keys k v d :
  (dict_set k v d).*1 = match dict_get k d with Some _ => d.*1 | None => d.*1 ++ [k] end.
Proof.
  induction d as [|[k' v'] d IH]; cbn -[String.eqb]; [done|].
  destruct (String.eqb_spec k k') as [->|Hne]; cbn; [done|].
  rewrite IH. by destruct (dict_get k d).
Qed.

Lemma dict_set_wf k v d : dict_wf d -> dict_wf (dict_set k v d).
Proof.
  unfold dict_wf. rewrite dict_set_keys. intros Hd.
  destruct (dict_get k d) eqn:Hg; [done|].
  apply NoDup_app. split_and!; [done| |apply NoDup_singleton].
  intros x Hx ->%list_elem_of_singleton. by apply dict_get_None in Hg.
Qed.

Lemma dict_set_elem_of k v d k' v' :
  (k', v') ∈ dict_set k v d -> (k', v') = (k, v) ∨ (k', v') ∈ d.
Proof.
  induction d as [|[k1 v1] d IH]; cbn -[String.eqb].
  - intros ?%list_elem_of_singleton. by left.
  - destruct (String.eqb k k1); rewrite !elem_of_cons; intros [?|?]; auto.
    destruct IH; auto.
Qed.

Lemma foldl_dict_pop_cons k v d ks :
  k ∉ ks ->
  foldl (fun c cid => dict_pop cid c) ((k, v) :: d) ks
  = (k, v) :: foldl (fun c cid => dict_pop cid c) d ks.
Proof.
  revert d. induction ks as [|k' ks IH]; intros d Hk; [done|].
  apply not_elem_of_cons in Hk as [Hne Hk]. cbn -[String.eqb].
  assert (k' ≠ k) as ->%String.eqb_neq by congruence. by apply IH.
Qed.

Lemma foldl_dict_pop_subseteq d ks :
  foldl (fun c cid => dict_pop cid c) d ks ⊆ d.
Proof.
  revert d. induction ks as [|k ks IH]; intros d; [done|]. cbn.
  etrans; [apply IH | apply dict_pop_subseteq].
Qed.
End DictFacts.

(** ** [broadcast] *)

Lemma broadcast_unfold up s m :
  broadcast up s m
  = (set_clients s (foldl (fun c cid => dict_pop cid c) (clients s) (dead_keys up (clients s))),
     [Broadcast m (map (fun e : string * conn => (e.1, e.2, up e.2)) (clients s))]).
Proof.
  unfold broadcast, dead_keys. do 3 f_equal.
  induction (clients s) as [|[k v] c IH]; [done|].
  cbn [map]. rewrite !filter_cons. cbn [fst snd].
  destruct (up v); [rewrite !decide_False by done | rewrite !decide_True by done];
    cbn [map fmap list_fmap fst snd]; by rewrite IH.
Qed.

Lemma dead_keys_subseteq up c : dead_keys up c ⊆ c.*1.
Proof.
  unfold dead_keys. intros k [[k' v] [-> [_ Hin]%list_elem_of_filter]]%list_elem_of_fmap.
  by apply (list_elem_of_fmap_2 fst) in Hin.
Qed.

Lemma prune_filter up c :
  dict_wf c ->
  foldl (fun c cid => dict_pop cid c) c (dead_keys up c)
  = filter (fun e : string * conn => up e.2 = true) c.
Proof.
  unfold dict_wf. induction c as [|[k v] c IH]; [done|].
  rewrite fmap_cons. intros [Hk Hc]%NoDup_cons.
  unfold dead_keys. rewrite !filter_cons. cbn [fst snd].
  destruct (up v) eqn:Hv.
  - rewrite decide_False by done. rewrite decide_True by done.
    rewrite foldl_dict_pop_cons; [by rewrite <-IH|].
    intros Hin. by apply dead_keys_subseteq in Hin.
  - rewrite decide_True by done. rewrite decide_False by done.
    cbn -[String.eqb]. rewrite String.eqb_refl. by apply IH.
Qed.

Lemma broadcast_fields up s m :
  seq (broadcast up s m).1 = seq s
  ∧ state (broadcast up s m).1 = state s
  ∧ dedup (broadcast up s m).1 = dedup s.
Proof. done. Qed.

Lemma broadcast_clients_filter up s m :
  dict_wf (clients s) ->
  clients (broadcast up s m).1 = filter (fun e : string * conn => up e.2 = true) (clients s).
Proof. intros Hwf. rewrite broadcast_unfold. cbn. by apply prune_filter. Qed.

Lemma broadcast_clients_subseteq up s m : clients (broadcast up s m).1 ⊆ clients s.
Proof. rewrite broadcast_unfold. apply foldl_dict_pop_subseteq. Qed.

Lemma foldl_dict_pop_wf {V} (d : list (string * V)) ks :
  dict_wf d -> dict_wf (foldl (fun c cid => dict_pop cid c) d ks).
Proof. revert d. induction ks as [|k ks IH]; intros d Hd; [done|]. by apply IH, dict_pop_wf. Qed.

Lemma broadcast_clients_wf up s m :
  dict_wf (clients s) -> dict_wf (clients (broadcast up s m).1).
Proof. rewrite broadcast_unfold. apply foldl_dict_pop_wf. Qed.

(** ** [handle_command], one call *)

Section HandleCommand.
Context (up : conn -> bool) (entropy : Z) (s : Server) (cmd : Command).

Lemma handle_command_duplicate :
  is_Some (dedup s !! dedup_key cmd) -> handle_command up entropy s cmd = (s, []).
Proof. intros Hd. unfold handle_command. fold (dedup_key cmd). by rewrite bool_decide_eq_true_2. Qed.

Lemma handle_command_rejected :
  dedup s !! dedup_key cmd = None -> valid_payload cmd = false ->
  exists message,
    handle_command up entropy s cmd
    = (reserved s, send_error_to up (reserved s) (cmd_client_id cmd) message).
Proof.
  intros Hd Hv. destruct (handle_command_outcome up entropy s cmd) as [[x Hx]|m _ _|pl _ Hv'].
  - congruence.
  - by exists m.
  - congruence.
Qed.

Lemma handle_command_accepted :
  dedup s !! dedup_key cmd = None -> valid_payload cmd = true ->
  exists payload,
    handle_command up entropy s cmd
    = broadcast up (recorded s cmd (apply_effect (state s) cmd))
        (MEvent (event_for s cmd (cmd_command cmd) payload)).
Proof.
  intros Hd Hv. destruct (handle_command_outcome up entropy s cmd) as [[x Hx]|m _ Hv'|pl _ _].
  - congruence.
  - congruence.
  - by exists pl.
Qed.

Lemma handle_command_dedup_mono k :
  is_Some (dedup s !! k) -> is_Some (dedup (handle_command up entropy s cmd).1 !! k).
Proof.
  intros Hk. destruct (handle_command_outcome up entropy s cmd); [done..|].
  cbn. rewrite lookup_insert. by case_decide.
Qed.

Lemma handle_command_clients_subseteq :
  clients (handle_command up entropy s cmd).1 ⊆ clients s.
Proof.
  destruct (handle_command_outcome up entropy s cmd); [done..|].
  apply (broadcast_clients_subseteq up (recorded s cmd _)).
Qed.

Lemma handle_command_clients_wf :
  dict_wf (clients s) -> dict_wf (clients (handle_command up entropy s cmd).1).
Proof.
  intros Hwf. destruct (handle_command_outcome up entropy s cmd); [done..|].
  by apply (broadcast_clients_wf up (recorded s cmd _)).
Qed.
End HandleCommand.

(** ** One handler step *)

Lemma handler_close_fields w ws :
  seq (server (handler_close w ws)) = seq (server w)
  ∧ state (server (handler_close w ws)) = state (server w)
  ∧ dedup (server (handler_close w ws)) = dedup (server w).
Proof. unfold handler_close; cbn. by repeat case_match. Qed.

Lemma validate_command_of obj :
  validate_command obj = None -> is_Some (command_of obj).
Proof.
  intros H. destruct obj as [| | | | | |o]; try discriminate.
  unfold validate_command, command_of, nonempty_str in *.
  repeat match type of H with
         | context [dict_get ?k o] =>
             destruct (dict_get k o) as [[]|]; cbn -[String.eqb] in H
         | context [if ?b then _ else _] =>
             destruct b; cbn -[String.eqb] in H
         end; try discriminate.
  by eexists.
Qed.

Lemma handler_message_command up entropy w ws obj cmd :
  validate_command obj = None ->
  command_of obj = Some cmd ->
  handler_message up entropy w ws (Some obj)
  = let r := handle_command up entropy
               (set_clients (server w) (dict_set (cmd_client_id cmd) ws (clients (server w))))
               cmd in
    ({| server := r.1; registered := <[ws := cmd_client_id cmd]> (registered w) |}, r.2).
Proof.
  intros Hv Hc. unfold handler_message. rewrite Hv, Hc. cbn zeta.
  by destruct (handle_command _ _ _ _).
Qed.

Lemma handler_handled w st : handled w st (handler w st).
Proof.
  assert (Hreply : forall ws m,
    handled w st (if up st ws then (w, [Reply ws m true])
                  else (handler_close w ws, [Reply ws m false]))).
  { intros ws m. destruct (handler_close_fields w ws) as (?&?&?).
    destruct (up st ws); apply handled_quiet; auto. }
  unfold handler. destruct (inp st) as [ws [obj|]|ws] eqn:Hi; cbn.
  - unfold handler_message. destruct (validate_command obj) as [err|] eqn:Hv; [apply Hreply|].
    destruct (command_of obj) as [cmd|] eqn:Hc; [|by apply handled_quiet].
    assert (carries st ws cmd) by (by exists obj).
    set (s := set_clients _ _).
    destruct (handle_command_outcome (up st) (entropy st) s cmd) as [Hd|m Hd Hp|pl Hd Hp].
    + by apply handled_quiet.
    + unfold send_error_to. cbn. rewrite dict_get_set_eq.
      by apply handled_rejected.
    + rewrite broadcast_unfold. by apply (handled_accepted w st _ cmd ws pl).
  - apply Hreply.
  - destruct (handler_close_fields w ws) as (?&?&?). by apply handled_quiet.
Qed.

(** ** Whole runs *)

Lemma run_app w steps1 steps2 :
  run w (steps1 ++ steps2)
  = ((run (run w steps1).1 steps2).1, (run w steps1).2 ++ (run (run w steps1).1 steps2).2).
Proof.
  revert w. induction steps1 as [|st steps1 IH]; intros w; cbn.
  - by destruct (run w steps2).
  - destruct (handler w st) as [w1 e1]. rewrite IH.
    destruct (run w1 steps1) as [w2 e2]; cbn.
    destruct (run w2 steps2) as [w3 e3]; cbn. by rewrite app_assoc.
Qed.

Lemma run_snoc w steps st :
  run w (steps ++ [st])
  = ((handler (run w steps).1 st).1, (run w steps).2 ++ (handler (run w steps).1 st).2).
Proof.
  rewrite run_app. cbn. destruct (handler _ st) as [w1 e1]; cbn. by rewrite app_nil_r.
Qed.

Lemma run_invariant (P : World -> Prop) :
  (forall w st, P w -> P (handler w st).1) ->
  forall steps w, P w -> P (run w steps).1.
Proof.
  intros Hstep steps. induction steps as [|st steps IH]; intros w Hw; [done|].
  cbn. specialize (Hstep w st Hw). destruct (handler w st) as [w1 e1].
  specialize (IH w1 Hstep). by destruct (run w1 steps).
Qed.

Lemma broadcast_seqs_app tr1 tr2 :
  broadcast_seqs (tr1 ++ tr2) = broadcast_seqs tr1 ++ broadcast_seqs tr2.
Proof.
  induction tr1 as [|e tr1 IH]; [done|]. cbn.
  destruct e as [| |[]]; cbn; by rewrite ?IH.
Qed.

Lemma rejected_count_app tr1 tr2 :
  rejected_count (tr1 ++ tr2) = (rejected_count tr1 + rejected_count tr2)%nat.
Proof. induction tr1 as [|[] tr1 IH]; cbn; by rewrite ?IH. Qed.

Lemma quiet_trace tr :
  Forall (fun e => is_broadcast e = false ∧ is_error_to e = false) tr ->
  broadcast_seqs tr = [] ∧ rejected_count tr = 0%nat.
Proof. induction 1 as [|[] tr [??] _ [??]]; by cbn. Qed.

(** ** Sequence numbers (C1) *)


Lemma run_seq_invariant steps :
  let w := (run boot steps).1 in
  let tr := (run boot steps).2 in
  StronglySorted Z.lt (broadcast_seqs tr)
  ∧ Forall (fun q => 1 <= q <= seq (server w)) (broadcast_seqs tr)
  ∧ seq (server w) = Z.of_nat (length (broadcast_seqs tr) + rejected_count tr)
  ∧ (rejected_count tr = 0%nat -> broadcast_seqs tr = seqZ 1 (seq (server w))).
Proof.
  induction steps as [|st steps IH] using rev_ind.
  { cbn. split_and!; by constructor. }
  cbn zeta in *. rewrite run_snoc. cbn [fst snd].
  destruct IH as (Hsort & Hbound & Hseq & Hfull).
  set (w := (run boot steps).1) in *. set (tr := (run boot steps).2) in *.
  rewrite broadcast_seqs_app, rejected_count_app.
  destruct (handler_handled w st) as
    [w' tr' Hq Hs Hd [Hb Hr]%quiet_trace
    |w' cmd ws m ok _ Hq Hs Hd
    |w' cmd ws pl atts _ Hq Hs Hd]; cbn [fst snd].
  - rewrite Hb, Hr, Hq, app_nil_r, Nat.add_0_r. done.
  - cbn. rewrite app_nil_r, Hq. split_and!; [done| |lia|lia].
    eapply Forall_impl; [exact Hbound|]. cbn. lia.
  - cbn. rewrite Hq, length_app. cbn. split_and!.
    + apply StronglySorted_app_2; [|done|repeat constructor].
      intros x1 x2 Hx1 ->%list_elem_of_singleton.
      rewrite Forall_forall in Hbound. specialize (Hbound _ Hx1). lia.
    + apply Forall_app. split; [|repeat constructor; lia].
      eapply Forall_impl; [exact Hbound|]. cbn. lia.
    + lia.
    + intros Hr. rewrite Nat.add_0_r in Hr.
      rewrite seqZ_app, <-Hfull by lia.
      rewrite seqZ_cons, seqZ_nil by lia. do 2 f_equal. lia.
Qed.



(** ** A step that carries a command *)

Lemma handler_carries w st ws cmd :
  carries st ws cmd ->
  handler w st
  = ({| server := (handle_command (up st) (entropy st) (with_registration w ws cmd) cmd).1;
        registered := <[ws := cmd_client_id cmd]> (registered w) |},
     (handle_command (up st) (entropy st) (with_registration w ws cmd) cmd).2).
Proof.
  intros (obj & Hi & Hv & Hc). unfold handler. rewrite Hi.
  by rewrite (handler_message_command _ _ _ _ _ cmd).
Qed.

Section CarriedCommand.
Context (w : World) (st : step) (ws : conn) (cmd : Command).
Hypothesis Hcarries : carries st ws cmd.

Lemma handler_duplicate :
  is_Some (dedup (server w) !! dedup_key cmd) ->
  (handler w st).2 = []
  ∧ server (handler w st).1 = with_registration w ws cmd.
Proof.
  intros Hd. rewrite (handler_carries w st ws cmd Hcarries).
  by rewrite handle_command_duplicate.
Qed.

Lemma handler_rejected :
  dedup (server w) !! dedup_key cmd = None ->
  valid_payload cmd = false ->
  exists message,
    (handler w st).2 = [ErrorTo (cmd_client_id cmd) ws (MError message) (up st ws)]
    ∧ server (handler w st).1 = reserved (with_registration w ws cmd).
Proof.
  intros Hd Hv. rewrite (handler_carries w st ws cmd Hcarries).
  destruct (handle_command_rejected (up st) (entropy st) (with_registration w ws cmd) cmd)
    as [m ->]; [done..|].
  exists m. unfold send_error_to. cbn. by rewrite dict_get_set_eq.
Qed.

Lemma handler_accepted :
  dedup (server w) !! dedup_key cmd = None ->
  valid_payload cmd = true ->
  exists payload,
    handler w st
    = ({| server :=
            (broadcast (up st)
               (recorded (with_registration w ws cmd) cmd
                  (apply_effect (state (server w)) cmd))
               (MEvent (event_for (server w) cmd (cmd_command cmd) payload))).1;
          registered := <[ws := cmd_client_id cmd]> (registered w) |},
       [Broadcast (MEvent (event_for (server w) cmd (cmd_command cmd) payload))
          (map (fun e : string * conn => (e.1, e.2, up st e.2))
             (dict_set (cmd_client_id cmd) ws (clients (server w))))]).
Proof.
  intros Hd Hv. rewrite (handler_carries w st ws cmd Hcarries).
  destruct (handle_command_accepted (up st) (entropy st) (with_registration w ws cmd) cmd)
    as [pl ->]; [done..|].
  exists pl. reflexivity.
Qed.
End CarriedCommand.

Lemma handler_dedup_mono w st k :
  is_Some (dedup (server w) !! k) -> is_Some (dedup (server (handler w st).1) !! k).
Proof.
  intros Hk.
  destruct (handler_handled w st) as [w' tr _ _ Hd _|w' c x m ok _ _ _ Hd|w' c x pl atts _ _ _ Hd];
    cbn; rewrite Hd; [done..|].
  rewrite lookup_insert. by case_decide.
Qed.

Lemma run_dedup_mono w steps k :
  is_Some (dedup (server w) !! k) -> is_Some (dedup (server (run w steps).1) !! k).
Proof.
  apply (run_invariant (fun w => is_Some (dedup (server w) !! k))).
  intros ??. apply handler_dedup_mono.
Qed.

(** ** Deduplication (C2) *)

(** The dedup key is a concatenation: two different pairs can share it. *)
Lemma dedup_key_not_injective :
  dedup_key {| cmd_client_id := "a:b"; cmd_event_id := "c"; cmd_command := "CHAT";
               cmd_payload := [] |}
  = dedup_key {| cmd_client_id := "a"; cmd_event_id := "b:c"; cmd_command := "CHAT";
                 cmd_payload := [] |}.
Proof. reflexivity. Qed.

(** C2.  Let a step carry a command with the pair (client_id, event_id) and
    be processed successfully (it broadcasts, or it changes the game state).
    Then, whatever the server handles in between, every later step carrying a
    command with the same pair is a silent no-op: it sends nothing (no event,
    no error), and leaves the sequence counter, the game state and the dedup
    map as they are.  So a pair is applied and broadcast at most once. *)
Theorem duplicate_is_silent_noop w a mid b ws_a ws_b cmd_a cmd_b :
  carries a ws_a cmd_a ->
  carries b ws_b cmd_b ->
  cmd_client_id cmd_b = cmd_client_id cmd_a ->
  cmd_event_id cmd_b = cmd_event_id cmd_a ->
  has_broadcast (handler w a).2 ∨ state (server (handler w a).1) ≠ state (server w) ->
  let w2 := (run (handler w a).1 mid).1 in
  (handler w2 b).2 = []
  ∧ seq (server (handler w2 b).1) = seq (server w2)
  ∧ state (server (handler w2 b).1) = state (server w2)
  ∧ dedup (server (handler w2 b).1) = dedup (server w2).
Proof.
  intros Ha Hb Hc He Hfirst w2.
  assert (Hkey : dedup_key cmd_b = dedup_key cmd_a) by (unfold dedup_key; congruence).
  assert (Hrec : is_Some (dedup (server (handler w a).1) !! dedup_key cmd_a)).
  { destruct (dedup (server w) !! dedup_key cmd_a) as [q|] eqn:Hd.
    { destruct (handler_duplicate w a ws_a cmd_a Ha) as [Htr Hs]; [by eexists|].
      rewrite Htr, Hs in Hfirst. destruct Hfirst as [Hx|Hx]; [by inversion Hx | done]. }
    destruct (valid_payload cmd_a) eqn:Hv.
    - destruct (handler_accepted w a ws_a cmd_a Ha Hd Hv) as [pl ->]. cbn.
      rewrite lookup_insert_eq. by eexists.
    - destruct (handler_rejected w a ws_a cmd_a Ha Hd Hv) as (m & Htr & Hs).
      rewrite Htr, Hs in Hfirst. destruct Hfirst as [Hx|Hx]; [|done].
      inversion Hx as [?? Hy|?? Hy]; [discriminate | inversion Hy]. }
  apply (run_dedup_mono _ mid) in Hrec. fold w2 in Hrec. rewrite <-Hkey in Hrec.
  destruct (handler_duplicate w2 b ws_b cmd_b Hb Hrec) as [-> ->]. done.
Qed.

(** C2 at work: the JOIN of pair (a, e1) is accepted; after a CHAT of another
    client, a second JOIN with the pair (a, e1) changes and sends nothing. *)
Lemma duplicate_is_silent_noop_witness :
  let w2 := (run (handler boot join_ann).1 [chat_hi]).1 in
  has_broadcast (handler boot join_ann).2
  ∧ (handler w2 join_bob_same_pair).2 = []
  ∧ seq (server (handler w2 join_bob_same_pair).1) = seq (server w2)
  ∧ state (server (handler w2 join_bob_same_pair).1) = state (server w2)
  ∧ dedup (server (handler w2 join_bob_same_pair).1) = dedup (server w2).
Proof.
  assert (H1 : has_broadcast (handler boot join_ann).2) by (vm_compute; by left).
  split; [exact H1|].
  eapply (duplicate_is_silent_noop boot join_ann [chat_hi] join_bob_same_pair 1%nat 3%nat).
  - eexists. split_and!; [reflexivity | vm_compute; reflexivity | vm_compute; reflexivity].
  - eexists. split_and!; [reflexivity | vm_compute; reflexivity | vm_compute; reflexivity].
  - reflexivity.
  - reflexivity.
  - left. exact H1.
Defined.

(** ** Rejected commands (C4, C9) *)

(** C4.  When a command that reaches per-command validation fails it, the
    step sends exactly one message, the error, to the connection the command
    came in on; nothing is broadcast and the game state (players and tokens)
    is unchanged. *)
Theorem rejected_command_only_errors_to_sender w st ws cmd :
  carries st ws cmd ->
  dedup (server w) !! dedup_key cmd = None ->
  valid_payload cmd = false ->
  (exists message,
     (handler w st).2 = [ErrorTo (cmd_client_id cmd) ws (MError message) (up st ws)])
  ∧ ¬ has_broadcast (handler w st).2
  ∧ players (state (server (handler w st).1)) = players (state (server w))
  ∧ tokens (state (server (handler w st).1)) = tokens (state (server w)).
Proof.
  intros Hc Hd Hv. destruct (handler_rejected w st ws cmd Hc Hd Hv) as (m & Htr & Hs).
  rewrite Htr, Hs. split_and!; [by exists m| |done..].
  intros Hx. inversion Hx as [?? Hy|?? Hy]; [discriminate | inversion Hy].
Qed.

(** C4 at work, on a server that already has a player and two connections:
    a JOIN with a blank name and a command the server does not know are both
    answered with an error to connection 1 alone, and leave the players as
    they were. *)
Lemma rejected_command_only_errors_to_sender_witness :
  let w := (run boot [chat_hi; recv 3 (envelope "c" "e9" "JOIN" [("name", JStr "Cy")])]).1 in
  clients (server w) = [("b", 2%nat); ("c", 3%nat)]
  ∧ (handler w join_blank).2
    = [ErrorTo "a" 1 (MError "JOIN requires payload.name as non-empty string.") true]
  ∧ players (state (server (handler w join_blank).1)) = players (state (server w))
  ∧ (handler w unknown_command).2 = [ErrorTo "a" 1 (MError "Unknown command: DANCE") true]
  ∧ players (state (server (handler w unknown_command).1)) = players (state (server w)).
Proof.
  intros w.
  destruct (rejected_command_only_errors_to_sender w join_blank 1%nat _
              (ex_intro _ _ (conj eq_refl (conj eq_refl eq_refl))) eq_refl eq_refl)
    as (_ & _ & Hp & _).
  destruct (rejected_command_only_errors_to_sender w unknown_command 1%nat _
              (ex_intro _ _ (conj eq_refl (conj eq_refl eq_refl))) eq_refl eq_refl)
    as (_ & _ & Hp' & _).
  split_and!; [vm_compute; reflexivity | vm_compute; reflexivity | exact Hp
              | vm_compute; reflexivity | exact Hp'].
Defined.





(** ** The branches of [handle_command] *)

Lemma nonempty_true s : s ≠ "" -> nonempty s = true.
Proof. intros Hs. unfold nonempty. by apply String.eqb_neq in Hs as ->. Qed.

(** Runs [handle_command] on a command that is no duplicate, down the branch
    the hypotheses in the context select. *)
Ltac run_branch cmd Hc Hd :=
  unfold handle_command; fold (dedup_key cmd);
  rewrite bool_decide_eq_false_2 by (rewrite Hd; apply is_Some_None);
  cbn zeta; unfold next_seq; rewrite Hc; cbn -[dedup_key nonempty strip];
  rewrite_guards; cbn -[dedup_key nonempty strip].

(** ** SET_HP (C3) *)





(** ** ROLL_DICE (C5) *)


(** Every value of the range is drawn for some entropy. *)
Lemma randint_onto a b r : a <= r <= b -> randint (r - a) a b = r.
Proof. intros Hr. unfold randint. rewrite Z.mod_small; lia. Qed.



(** ** MOVE_TOKEN (C6) *)

Lemma move_token_accepted up entropy s cmd token_id x y :
  cmd_command cmd = "MOVE_TOKEN" ->
  dedup s !! dedup_key cmd = None ->
  dict_get "token_id" (cmd_payload cmd) = Some (JStr token_id) ->
  token_id ≠ "" ->
  dict_get "x" (cmd_payload cmd) = Some (JInt x) ->
  dict_get "y" (cmd_payload cmd) = Some (JInt y) ->
  handle_command up entropy s cmd
  = broadcast up
      (recorded s cmd
         (set_tokens (state s)
            (<[token_id := {[ "x" := JInt x; "y" := JInt y ]}]> (tokens (state s)))))
      (MEvent (event_for s cmd "MOVE_TOKEN"
                 [("token_id", JStr token_id); ("x", JInt x); ("y", JInt y)])).
Proof.
  intros Hc Hd Ht Hne%nonempty_true Hx Hy. by run_branch cmd Hc Hd.
Qed.

(** C6.  An accepted MOVE_TOKEN with a non-empty string [token_id] and
    integers x, y stores exactly {x, y} under the token, whatever was there.
    After two such commands on one token the record is that of the second:
    the token map is the one the second command alone would have left. *)
Theorem move_token_overwrites up1 entropy1 up2 entropy2 s cmd1 cmd2 token_id x1 y1 x2 y2 :
  cmd_command cmd1 = "MOVE_TOKEN" ->
  cmd_command cmd2 = "MOVE_TOKEN" ->
  dedup s !! dedup_key cmd1 = None ->
  dedup s !! dedup_key cmd2 = None ->
  dedup_key cmd1 ≠ dedup_key cmd2 ->
  dict_get "token_id" (cmd_payload cmd1) = Some (JStr token_id) ->
  dict_get "token_id" (cmd_payload cmd2) = Some (JStr token_id) ->
  token_id ≠ "" ->
  dict_get "x" (cmd_payload cmd1) = Some (JInt x1) ->
  dict_get "y" (cmd_payload cmd1) = Some (JInt y1) ->
  dict_get "x" (cmd_payload cmd2) = Some (JInt x2) ->
  dict_get "y" (cmd_payload cmd2) = Some (JInt y2) ->
  let s1 := (handle_command up1 entropy1 s cmd1).1 in
  let s2 := (handle_command up2 entropy2 s1 cmd2).1 in
  tokens (state s1) !! token_id = Some {[ "x" := JInt x1; "y" := JInt y1 ]}
  ∧ tokens (state s2) !! token_id = Some {[ "x" := JInt x2; "y" := JInt y2 ]}
  ∧ tokens (state s2)
    = <[token_id := {[ "x" := JInt x2; "y" := JInt y2 ]}]> (tokens (state s)).
Proof.
  intros Hc1 Hc2 Hd1 Hd2 Hk Ht1 Ht2 Hne Hx1 Hy1 Hx2 Hy2 s1 s2.
  assert (Hs1 : tokens (state s1)
                = <[token_id := {[ "x" := JInt x1; "y" := JInt y1 ]}]> (tokens (state s))
                ∧ dedup s1 = <[dedup_key cmd1 := seq s + 1]> (dedup s)).
  { unfold s1. by rewrite (move_token_accepted _ _ _ _ token_id x1 y1). }
  destruct Hs1 as [Ht Hd].
  assert (Hs2 : tokens (state s2)
                = <[token_id := {[ "x" := JInt x2; "y" := JInt y2 ]}]> (tokens (state s1))).
  { unfold s2. rewrite (move_token_accepted _ _ _ _ token_id x2 y2); try done.
    rewrite Hd. by rewrite lookup_insert_ne. }
  rewrite Hs2, Ht. split_and!.
  - by rewrite lookup_insert_eq.
  - by rewrite lookup_insert_eq.
  - by rewrite insert_insert_eq.
Qed.

(** C6 at work: the pawn goes to (1, 2), then to (7, 9). *)
Lemma move_token_overwrites_witness :
  let s1 := (handle_command all_up 0 init (move "e1" 1 2)).1 in
  let s2 := (handle_command all_up 0 s1 (move "e2" 7 9)).1 in
  tokens (state s1) !! "pawn" = Some {[ "x" := JInt 1; "y" := JInt 2 ]}
  ∧ tokens (state s2) !! "pawn" = Some {[ "x" := JInt 7; "y" := JInt 9 ]}
  ∧ tokens (state s2) = <[ "pawn" := {[ "x" := JInt 7; "y" := JInt 9 ]}]> (tokens (state init)).
Proof.
  apply (move_token_overwrites all_up 0 all_up 0 init (move "e1" 1 2) (move "e2" 7 9) "pawn");
    first [ reflexivity | discriminate ].
Defined.

(** ** JOIN (C10) *)

Lemma lstrip_head s a r : lstrip s = String a r -> is_space a = false.
Proof.
  induction s as [|c s IH]; cbn; [done|].
  destruct (is_space c) eqn:Hc; [done|]. intros ?; by simplify_eq.
Qed.

Lemma rstrip_nonempty_last s : rstrip s ≠ "" -> exists r a, rstrip s = r +:+ String a "" ∧ is_space a = false.
Proof.
  induction s as [|c s IH]; cbn; [done|].
  destruct (rstrip s) as [|c' r'] eqn:Hr.
  - destruct (is_space c) eqn:Hc; [done|]. intros _. by exists "", c.
  - intros _. destruct IH as (r & a & Heq & Ha); [done|].
    exists (String c r), a. cbn. by rewrite Heq.
Qed.

(** C10.  An accepted JOIN stores [name.strip()], not the submitted name, in
    the player record, both when the player is created (hp 20) and when an
    existing player is renamed (hp kept), and echoes that stored name in the
    event. *)
Theorem join_stores_trimmed_name up entropy s cmd nm :
  cmd_command cmd = "JOIN" ->
  dedup s !! dedup_key cmd = None ->
  dict_get "name" (cmd_payload cmd) = Some (JStr nm) ->
  strip nm ≠ "" ->
  let cid := cmd_client_id cmd in
  let s' := (handle_command up entropy s cmd).1 in
  (players (state s) !! cid = None ->
   players (state s') !! cid = Some {| client_id := cid; name := strip nm; hp := 20 |})
  ∧ (forall p, players (state s) !! cid = Some p ->
     players (state s') !! cid
     = Some {| client_id := client_id p; name := strip nm; hp := hp p |})
  ∧ exists attempts,
      (handle_command up entropy s cmd).2
      = [Broadcast
           (MEvent (event_for s cmd "JOIN"
                      [("client_id", JStr cid); ("name", JStr (strip nm))]))
           attempts].
Proof.
  intros Hc Hd Hn Hne%nonempty_true cid s'. unfold s'. clear s'.
  run_branch cmd Hc Hd. fold cid.
  destruct (players (state s) !! cid) as [p|] eqn:Hp; cbn; rewrite lookup_insert_eq;
    split_and!; try done; try (by eexists); by intros ? [= <-].
Qed.

(** C10 at work: the name "  Bob " is stored and echoed as "Bob". *)
Lemma join_stores_trimmed_name_witness :
  strip "  Bob " = "Bob"
  ∧ players (state (handle_command all_up 0 init join_padded).1) !! "a"
    = Some {| client_id := "a"; name := "Bob"; hp := 20 |}.
Proof.
  split; [reflexivity|].
  exact (proj1 (join_stores_trimmed_name all_up 0 init join_padded "  Bob "
                  eq_refl eq_refl eq_refl ltac:(discriminate)) eq_refl).
Defined.

(** ** Fan-out (C7) *)



(** ** Closing a connection (C8) *)

Lemma dict_get_pop_eq {V} k (d : list (string * V)) :
  dict_wf d -> dict_get k (dict_pop k d) = None.
Proof.
  unfold dict_wf. induction d as [|[k' v'] d IH]; cbn -[String.eqb]; [done|].
  intros [Hk Hd]%NoDup_cons.
  destruct (String.eqb_spec k k') as [->|Hne]; cbn -[String.eqb].
  - by apply dict_get_None.
  - apply String.eqb_neq in Hne as ->. by apply IH.
Qed.


Lemma handle_command_keeps_live up entropy s cmd k ws :
  dict_wf (clients s) ->
  dict_get k (clients s) = Some ws ->
  up ws = true ->
  dict_get k (clients (handle_command up entropy s cmd).1) = Some ws.
Proof.
  intros Hwf Hk Hup.
  destruct (handle_command_outcome up entropy s cmd); [done..|].
  apply elem_of_dict_get.
  - by apply (broadcast_clients_wf up (recorded s cmd _)).
  - rewrite (broadcast_clients_filter up (recorded s cmd _)) by done.
    apply list_elem_of_filter. split; [done | by apply dict_get_elem_of].
Qed.

Lemma handler_close_clients_subseteq w ws :
  clients (server (handler_close w ws)) ⊆ clients (server w).
Proof.
  unfold handler_close; cbn. repeat case_match; cbn; first [done | apply dict_pop_subseteq].
Qed.

Lemma handler_close_clients_wf w ws :
  dict_wf (clients (server w)) -> dict_wf (clients (server (handler_close w ws))).
Proof.
  intros Hwf. unfold handler_close; cbn.
  repeat case_match; cbn; first [done | by apply dict_pop_wf].
Qed.

Lemma handler_clients_wf w st :
  dict_wf (clients (server w)) -> dict_wf (clients (server (handler w st).1)).
Proof.
  intros Hwf.
  assert (Hreply : forall ws m,
    dict_wf (clients (server (if up st ws then (w, [Reply ws m true])
                              else (handler_close w ws, [Reply ws m false])).1))).
  { intros ws m. destruct (up st ws); [done | by apply handler_close_clients_wf]. }
  unfold handler. destruct (inp st) as [ws [obj|]|ws]; cbn.
  - unfold handler_message. destruct (validate_command obj); [apply Hreply|].
    destruct (command_of obj) as [cmd|]; [|done].
    pose proof (handle_command_clients_wf (up st) (entropy st)
                  (set_clients (server w) (dict_set (cmd_client_id cmd) ws (clients (server w))))
                  cmd (dict_set_wf _ _ _ Hwf)) as H.
    by destruct (handle_command _ _ _ _).
  - apply Hreply.
  - by apply handler_close_clients_wf.
Qed.

Lemma run_clients_wf steps : dict_wf (clients (server (run boot steps).1)).
Proof.
  apply (run_invariant (fun w => dict_wf (clients (server w)))).
  - intros w st. apply handler_clients_wf.
  - apply NoDup_nil_2.
Qed.

Lemma carries_client_id st ws cmd : carries st ws cmd -> nonempty (cmd_client_id cmd) = true.
Proof.
  intros (obj & _ & Hv & Hc). destruct obj as [| | | | | |o]; try discriminate.
  unfold validate_command, command_of, nonempty_str in *.
  repeat match type of Hv with
         | context [dict_get ?k o] =>
             destruct (dict_get k o) as [[]|]; cbn -[String.eqb nonempty] in Hv, Hc
         end; try discriminate.
  simplify_eq/=.
  repeat match type of Hv with
         | context [if ?b then _ else _] =>
             destruct b eqn:?; cbn -[String.eqb nonempty] in Hv
         end; try discriminate.
  by repeat match goal with H : negb _ = false |- _ => apply negb_false_iff in H end.
Qed.



(** * Further properties of the server *)

(** ** The envelope check *)

Lemma nonempty_true_iff s : nonempty s = true <-> s ≠ "".
Proof.
  unfold nonempty. destruct (String.eqb_spec s ""); split; intros; try done; congruence.
Qed.

Lemma nonempty_str_true v : nonempty_str v = true <-> exists s, v = Some (JStr s) ∧ s ≠ "".
Proof.
  unfold nonempty_str. split.
  - destruct v as [[]|]; try done. intros ?%nonempty_true_iff. by eexists.
  - intros (s & -> & ?). by apply nonempty_true_iff.
Qed.

(** X1.  [validate_command] lets a message through exactly when it is an
    object whose [type] is the string "command", whose [client_id],
    [event_id] and [command] are non-empty strings and whose [payload] is an
    object; these are then the four fields [handle_command] reads. *)
Theorem validate_command_accepts_iff obj :
  validate_command obj = None <->
  exists o c e k p,
    obj = JObj o
    ∧ dict_get "type" o = Some (JStr "command")
    ∧ (dict_get "client_id" o = Some (JStr c) ∧ c ≠ "")
    ∧ (dict_get "event_id" o = Some (JStr e) ∧ e ≠ "")
    ∧ (dict_get "command" o = Some (JStr k) ∧ k ≠ "")
    ∧ dict_get "payload" o = Some (JObj p)
    ∧ command_of obj
      = Some {| cmd_client_id := c; cmd_event_id := e; cmd_command := k; cmd_payload := p |}.
Proof.
  split.
  - destruct obj as [| | | | | |o]; try discriminate. cbn -[String.eqb].
    destruct (dict_get "type" o) as [[| | | |t| |]|] eqn:Ht; try discriminate.
    destruct (String.eqb_spec t "command") as [->|]; [|discriminate]. cbn -[String.eqb].
    destruct (nonempty_str (dict_get "client_id" o)) eqn:Hc; [|discriminate].
    destruct (nonempty_str (dict_get "event_id" o)) eqn:He; [|discriminate].
    destruct (nonempty_str (dict_get "command" o)) eqn:Hk; [|discriminate].
    cbn -[String.eqb].
    destruct (dict_get "payload" o) as [[| | | | | |p]|] eqn:Hp; try discriminate.
    intros _.
    apply nonempty_str_true in Hc as (c & Hc & ?).
    apply nonempty_str_true in He as (e & He & ?).
    apply nonempty_str_true in Hk as (k & Hk & ?).
    exists o, c, e, k, p. rewrite Hc, He, Hk. by split_and!.
  - intros (o & c & e & k & p & -> & Ht & [Hc Hc'] & [He He'] & [Hk Hk'] & Hp & _).
    cbn -[String.eqb]. rewrite Ht, Hc, He, Hk, Hp. cbn -[String.eqb nonempty].
    apply nonempty_true_iff in Hc', He', Hk'. by rewrite Hc', He', Hk'.
Qed.

(** X1 at work: the envelope the client builds for a JOIN. *)
Lemma validate_command_accepts_iff_witness :
  validate_command (envelope "a" "e1" "JOIN" [("name", JStr "Ann")]) = None.
Proof.
  apply validate_command_accepts_iff.
  eexists _, "a", "e1", "JOIN", _. split_and!; try reflexivity; discriminate.
Defined.

(** ** Messages that do not reach [handle_command] *)

(** X2.  A message that is not JSON, or whose envelope is refused, is
    answered with one error on its own connection and nothing else: the
    sequence counter, the game state and the dedup map are untouched and the
    client id is not registered.  If the answer can be sent the whole world
    is as before; if not, the handler ends through its [finally] block. *)
Theorem invalid_message_only_replies w st ws raw :
  inp st = Message ws raw ->
  raw = None ∨ (exists obj err, raw = Some obj ∧ validate_command obj = Some err) ->
  (exists message, (handler w st).2 = [Reply ws (MError message) (up st ws)])
  ∧ seq (server (handler w st).1) = seq (server w)
  ∧ state (server (handler w st).1) = state (server w)
  ∧ dedup (server (handler w st).1) = dedup (server w)
  ∧ (up st ws = true -> (handler w st).1 = w)
  ∧ (up st ws = false -> (handler w st).1 = handler_close w ws).
Proof.
  intros Hi Hraw. unfold handler. rewrite Hi. unfold handler_message.
  destruct (handler_close_fields w ws) as (Hq & Hs & Hd).
  destruct Hraw as [->|(obj & err & -> & ->)];
    destruct (up st ws); cbn;
    (split_and!; [by eexists|done..| |]); try done.
Qed.

(** X2 at work: a JSON array instead of an object. *)
Lemma invalid_message_only_replies_witness :
  (handler boot {| inp := Message 1 (Some (JArr [])); up := all_up; entropy := 0 |}).2
  = [Reply 1 (MError "Message must be a JSON object.") true]
  ∧ (handler boot {| inp := Message 1 (Some (JArr [])); up := all_up; entropy := 0 |}).1
    = boot.
Proof.
  destruct (invalid_message_only_replies boot
              {| inp := Message 1 (Some (JArr [])); up := all_up; entropy := 0 |}
              1%nat (Some (JArr [])) eq_refl
              (or_intror (ex_intro _ _ (ex_intro _ _ (conj eq_refl eq_refl)))))
    as (_ & _ & _ & _ & Hup & _).
  split; [reflexivity | exact (Hup eq_refl)].
Defined.

(** ** What a step with or without a broadcast has done *)

Lemma has_broadcast_nil : ¬ has_broadcast [].
Proof. intros H. inversion H. Qed.

Lemma has_broadcast_error_to cid ws m ok : ¬ has_broadcast [ErrorTo cid ws m ok].
Proof. intros H. inversion H as [?? Hx|?? Hx]; [discriminate | inversion Hx]. Qed.

Lemma handler_broadcast_inv w st :
  has_broadcast (handler w st).2 ->
  exists ws cmd,
    carries st ws cmd
    ∧ dedup (server w) !! dedup_key cmd = None
    ∧ valid_payload cmd = true.
Proof.
  intros Hb.
  pose proof (handler_handled w st) as Hh.
  destruct (handler w st) as [w1 tr1] eqn:Hrun. cbn in Hb.
  inversion Hh as [w' tr _ _ _ Hq|w' c x m ok _ _ _ _|w' c x pl atts Hc _ _ _]; subst.
  - unfold has_broadcast in Hb. rewrite Exists_exists in Hb.
    rewrite Forall_forall in Hq. destruct Hb as (e & He & Hbe).
    destruct (Hq e He). congruence.
  - by apply has_broadcast_error_to in Hb.
  - exists x, c. split; [done|].
    destruct (dedup (server w) !! dedup_key c) as [q|] eqn:Hd.
    { destruct (handler_duplicate w st x c Hc) as [Htr _]; [by eexists|].
      rewrite Hrun in Htr. discriminate. }
    split; [done|]. destruct (valid_payload c) eqn:Hv; [done|].
    destruct (handler_rejected w st x c Hc Hd Hv) as (m & Htr & _).
    rewrite Hrun in Htr. discriminate.
Qed.

Lemma handler_quiet_inv w st :
  ¬ has_broadcast (handler w st).2 ->
  state (server (handler w st).1) = state (server w)
  ∧ dedup (server (handler w st).1) = dedup (server w).
Proof.
  intros Hb.
  destruct (handler_handled w st) as [w' tr _ Hs Hd _|w' c x m ok _ _ Hs Hd|w' c x pl atts _ _ _ _].
  - done.
  - done.
  - destruct Hb. by left.
Qed.

(** ** Registration *)



(** X4.  Only [broadcast] prunes the registry.  A step that carries a command
    and broadcasts nothing (a duplicate, or a rejected command, even one
    whose error could not be sent) leaves the registry as it was but for the
    registration of the sender. *)
Theorem no_broadcast_no_pruning w st ws cmd :
  carries st ws cmd ->
  ¬ has_broadcast (handler w st).2 ->
  clients (server (handler w st).1)
  = dict_set (cmd_client_id cmd) ws (clients (server w)).
Proof.
  intros Hc Hb.
  destruct (dedup (server w) !! dedup_key cmd) as [q|] eqn:Hd.
  { destruct (handler_duplicate w st ws cmd Hc) as [_ ->]; [by eexists | done]. }
  destruct (valid_payload cmd) eqn:Hv.
  - destruct (handler_accepted w st ws cmd Hc Hd Hv) as [pl Hacc].
    rewrite Hacc in Hb. destruct Hb. by left.
  - by destruct (handler_rejected w st ws cmd Hc Hd Hv) as (m & _ & ->).
Qed.

(** X4 at work: the error for a blank JOIN cannot be sent, and the sender
    stays registered. *)
Lemma no_broadcast_no_pruning_witness :
  let st := {| inp := inp join_blank; up := down; entropy := 0 |} in
  (handler boot st).2
  = [ErrorTo "a" 1 (MError "JOIN requires payload.name as non-empty string.") false]
  ∧ clients (server (handler boot st).1) = [("a", 1%nat)].
Proof.
  intros st. split; [vm_compute; reflexivity|].
  rewrite (no_broadcast_no_pruning boot st 1%nat _
             (ex_intro _ _ (conj eq_refl (conj eq_refl eq_refl)))).
  - reflexivity.
  - vm_compute. apply has_broadcast_error_to.
Defined.

Lemma handler_step_cases w st :
  (¬ has_broadcast (handler w st).2
   ∧ broadcast_seqs (handler w st).2 = []
   ∧ state (server (handler w st).1) = state (server w)
   ∧ dedup (server (handler w st).1) = dedup (server w)
   ∧ seq (server w) <= seq (server (handler w st).1) <= seq (server w) + 1)
  ∨ (exists ws cmd payload attempts,
       carries st ws cmd
       ∧ dedup (server w) !! dedup_key cmd = None
       ∧ valid_payload cmd = true
       ∧ (handler w st).2
         = [Broadcast (MEvent (event_for (server w) cmd (cmd_command cmd) payload)) attempts]
       ∧ state (server (handler w st).1) = apply_effect (state (server w)) cmd
       ∧ dedup (server (handler w st).1)
         = <[dedup_key cmd := seq (server w) + 1]> (dedup (server w))
       ∧ seq (server (handler w st).1) = seq (server w) + 1).
Proof.
  pose proof (handler_broadcast_inv w st) as Hinv.
  pose proof (handler_handled w st) as Hh.
  destruct (handler w st) as [w1 tr1] eqn:Hrun. cbn in *.
  inversion Hh as [w' tr Hq Hs Hd Hf|w' c x m ok _ Hq Hs Hd|w' c x pl atts Hc Hq Hs Hd]; subst.
  - left. destruct (quiet_trace _ Hf) as [Hb _]. split_and!; [|done|done|done|lia|lia].
    unfold has_broadcast. rewrite Exists_exists. rewrite Forall_forall in Hf.
    intros (e & He & Hbe). destruct (Hf e He). congruence.
  - left. split_and!; [apply has_broadcast_error_to|done|done|done|lia|lia].
  - right. destruct Hinv as (ws' & c' & Hc' & Hd' & Hv'); [by left|].
    assert (x = ws' ∧ c = c') as [-> ->].
    { destruct Hc as (o1 & Hi1 & _ & Hc1), Hc' as (o2 & Hi2 & _ & Hc2).
      rewrite Hi1 in Hi2. by simplify_eq. }
    by exists ws', c', pl, atts.
Qed.

(** ** The dedup map *)

(** X5.  Dedup entries are permanent: whatever the server handles, an entry
    is neither evicted nor overwritten. *)
Theorem dedup_entries_are_permanent w steps k q :
  dedup (server w) !! k = Some q ->
  dedup (server (run w steps).1) !! k = Some q.
Proof.
  apply (run_invariant (fun w' => dedup (server w') !! k = Some q)).
  clear w. intros w st Hk.
  destruct (handler_step_cases w st) as [(_ & _ & _ & -> & _)|
    (ws & cmd & pl & atts & _ & Hd & _ & _ & _ & -> & _)]; [done|].
  rewrite lookup_insert_ne; [done|]. congruence.
Qed.

(** X5 at work: the entry of the first JOIN survives a retry under the same
    pair, a rejected command and a close. *)
Lemma dedup_entries_are_permanent_witness :
  dedup (server (handler boot join_ann).1) !! "a:e1" = Some 1
  ∧ dedup (server (run (handler boot join_ann).1
                     [join_bob_same_pair; join_blank; first_closes]).1) !! "a:e1" = Some 1.
Proof.
  assert (H : dedup (server (handler boot join_ann).1) !! "a:e1" = Some 1)
    by (vm_compute; reflexivity).
  split; [exact H|]. by apply dedup_entries_are_permanent.
Defined.


(** ** Invariants of the game state and of the registry *)

Lemma apply_effect_players_ok g cmd :
  valid_payload cmd = true ->
  cmd_client_id cmd ≠ "" ->
  players_ok g -> players_ok (apply_effect g cmd).
Proof.
  intros Hv Hcid Hg. unfold apply_effect, valid_payload in *.
  destruct (String.eqb (cmd_command cmd) "JOIN").
  { destruct (dict_get "name" (cmd_payload cmd)) as [[| | | |nm| |]|]; try done.
    apply nonempty_true_iff in Hv.
    intros k p. cbn. rewrite lookup_insert. case_decide; [|by apply Hg].
    intros [= <-]. subst k.
    destruct (players g !! cmd_client_id cmd) as [p0|] eqn:Hp; cbn; [|done].
    by destruct (Hg _ _ Hp) as (-> & _ & _). }
  destruct (String.eqb (cmd_command cmd) "CHAT"); [done|].
  destruct (String.eqb (cmd_command cmd) "ROLL_DICE"); [done|].
  destruct (String.eqb (cmd_command cmd) "MOVE_TOKEN").
  { by repeat case_match. }
  destruct (String.eqb (cmd_command cmd) "SET_HP"); [|done].
  destruct (dict_get "target_id" (cmd_payload cmd)) as [[| | | |t| |]|]; try done.
  destruct (dict_get "delta" (cmd_payload cmd) ≫= as_int) as [d|]; [|done].
  cbn in Hv. apply andb_true_iff in Hv as [Ht%nonempty_true_iff _].
  intros k p. cbn. rewrite lookup_insert. case_decide; [|by apply Hg].
  intros [= <-]. subst k. cbn.
  destruct (players g !! t) as [p0|] eqn:Hp; cbn; [|done].
  by destruct (Hg _ _ Hp) as (-> & _ & ?).
Qed.

Lemma apply_effect_tokens_ok g cmd :
  valid_payload cmd = true -> tokens_ok g -> tokens_ok (apply_effect g cmd).
Proof.
  intros Hv Hg. unfold apply_effect, valid_payload in *.
  destruct (String.eqb (cmd_command cmd) "JOIN"); [by repeat case_match|].
  destruct (String.eqb (cmd_command cmd) "CHAT"); [done|].
  destruct (String.eqb (cmd_command cmd) "ROLL_DICE"); [done|].
  destruct (String.eqb (cmd_command cmd) "MOVE_TOKEN"); [|by repeat case_match].
  destruct (dict_get "token_id" (cmd_payload cmd)) as [[| | | |t| |]|]; try done.
  destruct (dict_get "x" (cmd_payload cmd)) as [x|]; [|done].
  destruct (dict_get "y" (cmd_payload cmd)) as [y|]; [|done].
  cbn in Hv.
  apply andb_true_iff in Hv as [Hv Hy%bool_decide_eq_true].
  apply andb_true_iff in Hv as [Ht%nonempty_true_iff Hx%bool_decide_eq_true].
  intros t' r. cbn. rewrite lookup_insert. case_decide; [|by apply Hg].
  intros [= <-]. subst t'. split; [done|]. by exists x, y.
Qed.

(** X7.  Over any run from boot, every player sits under its own client id,
    that id is not empty, and the player's name is not empty. *)
Theorem players_keyed_by_own_id steps k p :
  players (state (server (run boot steps).1)) !! k = Some p ->
  client_id p = k ∧ k ≠ "" ∧ name p ≠ "".
Proof.
  revert k p. change (players_ok (state (server (run boot steps).1))).
  apply (run_invariant (fun w => players_ok (state (server w)))); [|done].
  intros w st Hw.
  destruct (handler_step_cases w st) as [(_ & _ & -> & _)|
    (ws & cmd & pl & atts & Hc & _ & Hv & _ & -> & _)]; [done|].
  apply apply_effect_players_ok; [done| |done].
  by apply nonempty_true_iff, (carries_client_id st ws).
Qed.

(** X7 at work: the player a SET_HP creates for an unknown target. *)
Lemma players_keyed_by_own_id_witness :
  let steps := [recv 1 (envelope "dm" "e7" "SET_HP"
                          [("target_id", JStr "orc"); ("delta", JInt (-3))])] in
  players (state (server (run boot steps).1)) !! "orc"
  = Some {| client_id := "orc"; name := "orc"; hp := 17 |}
  ∧ client_id {| client_id := "orc"; name := "orc"; hp := 17 |} = "orc".
Proof.
  intros steps.
  assert (H : players (state (server (run boot steps).1)) !! "orc"
              = Some {| client_id := "orc"; name := "orc"; hp := 17 |})
    by (vm_compute; reflexivity).
  split; [exact H|]. exact (proj1 (players_keyed_by_own_id steps _ _ H)).
Defined.

(** X8.  Over any run from boot, every token has a non-empty id and its
    record has exactly the two entries x and y, each a value that passes
    [isinstance(_, int)]. *)
Theorem tokens_are_xy_records steps t r :
  tokens (state (server (run boot steps).1)) !! t = Some r ->
  t ≠ ""
  ∧ exists x y, r = {[ "x" := x; "y" := y ]} ∧ is_Some (as_int x) ∧ is_Some (as_int y).
Proof.
  revert t r. change (tokens_ok (state (server (run boot steps).1))).
  apply (run_invariant (fun w => tokens_ok (state (server w)))); [|done].
  intros w st Hw.
  destruct (handler_step_cases w st) as [(_ & _ & -> & _)|
    (ws & cmd & pl & atts & _ & _ & Hv & _ & -> & _)]; [done|].
  by apply apply_effect_tokens_ok.
Qed.

(** X8 at work: a pawn moved twice. *)
Lemma tokens_are_xy_records_witness :
  let steps := [recv 1 (envelope "a" "e1" "MOVE_TOKEN"
                          [("token_id", JStr "pawn"); ("x", JInt 1); ("y", JInt 2)]);
                recv 1 (envelope "a" "e2" "MOVE_TOKEN"
                          [("token_id", JStr "pawn"); ("x", JInt 7); ("y", JInt 9)])] in
  tokens (state (server (run boot steps).1)) !! "pawn"
  = Some {[ "x" := JInt 7; "y" := JInt 9 ]}
  ∧ "pawn" ≠ "".
Proof.
  intros steps.
  assert (H : tokens (state (server (run boot steps).1)) !! "pawn"
              = Some {[ "x" := JInt 7; "y" := JInt 9 ]})
    by (vm_compute; reflexivity).
  split; [exact H|]. exact (proj1 (tokens_are_xy_records steps _ _ H)).
Defined.

Lemma handler_clients_origin w st e :
  e ∈ clients (server (handler w st).1) ->
  e ∈ clients (server w) ∨ exists ws cmd, carries st ws cmd ∧ e = (cmd_client_id cmd, ws).
Proof.
  assert (Hreply : forall ws m,
    e ∈ clients (server (if up st ws then (w, [Reply ws m true])
                         else (handler_close w ws, [Reply ws m false])).1) ->
    e ∈ clients (server w)).
  { intros ws m. destruct (up st ws); [done|]. apply handler_close_clients_subseteq. }
  unfold handler. destruct (inp st) as [ws [obj|]|ws] eqn:Hi; cbn.
  - unfold handler_message. destruct (validate_command obj) eqn:Hv; [left; eauto|].
    destruct (command_of obj) as [cmd|] eqn:Hc; [|by left].
    destruct (handle_command _ _ _ cmd) as [s' eff] eqn:Hrun. cbn. intros He.
    assert (e ∈ clients (handle_command (up st) (entropy st)
                           (set_clients (server w)
                              (dict_set (cmd_client_id cmd) ws (clients (server w)))) cmd).1)
      as He' by (by rewrite Hrun).
    apply handle_command_clients_subseteq in He'. cbn in He'.
    destruct e as [k v]. apply dict_set_elem_of in He' as [->|?]; [|by left].
    right. exists ws, cmd. split; [by exists obj | done].
  - left; eauto.
  - intros He. left. by apply handler_close_clients_subseteq in He.
Qed.

(** X9.  Over any run from boot the registry is a proper dictionary whose
    keys are non-empty client ids: no id is registered twice and the empty
    id is never registered. *)
Theorem registry_ids_distinct_nonempty steps :
  dict_wf (clients (server (run boot steps).1))
  ∧ keys_nonempty (clients (server (run boot steps).1)).
Proof.
  split; [apply run_clients_wf|].
  apply (run_invariant (fun w => keys_nonempty (clients (server w)))); [|by constructor].
  intros w st Hw. unfold keys_nonempty in *. rewrite Forall_forall in *.
  intros e [He|(ws & cmd & Hc & ->)]%handler_clients_origin; [by apply Hw|].
  cbn. by apply nonempty_true_iff, (carries_client_id st ws).
Qed.

(** ** The sequence counter *)

(** X10.  The sequence counter never goes down, and a run of n inputs raises
    it by at most n. *)
Theorem seq_grows_by_at_most_one_per_input w steps :
  seq (server w) <= seq (server (run w steps).1)
  <= seq (server w) + Z.of_nat (length steps).
Proof.
  revert w. induction steps as [|st steps IH]; intros w; [cbn; lia|].
  cbn [run]. pose proof (handler_step_cases w st) as Hst.
  destruct (handler w st) as [w1 e1]. specialize (IH w1).
  destruct (run w1 steps) as [w2 e2]. cbn [fst snd length] in *.
  destruct Hst as [(_ & _ & _ & _ & ?)|(?&?&?&?& _ & _ & _ & _ & _ & _ & ?)]; lia.
Qed.

(** ** CHAT *)



(** ** Booleans where integers are expected *)



(** ** More on [broadcast] and on closing *)



Lemma dict_pop_keeps_others {V} k (v : V) d e :
  dict_get k d = Some v -> e ∈ d -> e ≠ (k, v) -> e ∈ dict_pop k d.
Proof.
  induction d as [|[k' v'] d IH]; cbn -[String.eqb]; [done|].
  destruct (String.eqb_spec k k') as [->|Hne].
  - intros [= ->] [->|?]%elem_of_cons ?; done.
  - intros Hg [->|?]%elem_of_cons ?; [left | right; by apply IH].
Qed.

(** X14.  A close evicts at most the closing connection's own entry: every
    registration of another connection is still there afterwards. *)
Theorem close_keeps_other_connections w ws cid ws' :
  (cid, ws') ∈ clients (server w) ->
  ws' ≠ ws ->
  (cid, ws') ∈ clients (server (handler_close w ws)).
Proof.
  intros Hin Hne. unfold handler_close. cbn.
  destruct (registered w !! ws) as [rcid|]; [|done].
  destruct (nonempty rcid); [|done]. cbn.
  destruct (dict_get rcid (clients (server w))) as [ws0|] eqn:Hg; [|done].
  destruct (Nat.eqb_spec ws0 ws) as [->|]; [|done]. cbn.
  apply (dict_pop_keeps_others _ _ _ _ Hg Hin). congruence.
Qed.

(** X14 at work: connection 1 closes; client "b" on connection 2 stays. *)
Lemma close_keeps_other_connections_witness :
  let w := (run boot [join_ann; chat_hi]).1 in
  clients (server w) = [("a", 1%nat); ("b", 2%nat)]
  ∧ ("b", 2%nat) ∈ clients (server (handler_close w 1)).
Proof.
  intros w. split; [vm_compute; reflexivity|].
  apply close_keeps_other_connections; [|discriminate].
  vm_compute. right. left.
Defined.

(** X15.  The handler remembers only the last client id its connection
    used.  When a connection has sent commands under two different ids (its
    sends succeeding), its close removes the second id and leaves the first
    one registered to the closed connection. *)
Theorem close_leaves_earlier_id_registered w st1 st2 ws cmd1 cmd2 :
  dict_wf (clients (server w)) ->
  carries st1 ws cmd1 ->
  carries st2 ws cmd2 ->
  cmd_client_id cmd1 ≠ cmd_client_id cmd2 ->
  up st1 ws = true ->
  up st2 ws = true ->
  let w2 := (handler (handler w st1).1 st2).1 in
  dict_get (cmd_client_id cmd1) (clients (server (handler_close w2 ws))) = Some ws
  ∧ dict_get (cmd_client_id cmd2) (clients (server (handler_close w2 ws))) = None.
Proof.
  intros Hwf H1 H2 Hne Hup1 Hup2 w2.
  set (w1 := (handler w st1).1).
  assert (Hwf1 : dict_wf (clients (server w1))) by (by apply handler_clients_wf).
  assert (Hwf2 : dict_wf (clients (server w2))) by (by apply handler_clients_wf).
  assert (Hg1 : dict_get (cmd_client_id cmd1) (clients (server w1)) = Some ws).
  { unfold w1. rewrite (handler_carries w st1 ws cmd1 H1). cbn.
    apply handle_command_keeps_live; [by apply dict_set_wf|apply dict_get_set_eq|done]. }
  assert (Hg21 : dict_get (cmd_client_id cmd1) (clients (server w2)) = Some ws).
  { unfold w2. fold w1. rewrite (handler_carries w1 st2 ws cmd2 H2). cbn.
    apply handle_command_keeps_live; [by apply dict_set_wf| |done].
    unfold with_registration. cbn. by rewrite dict_get_set_ne. }
  assert (Hg22 : dict_get (cmd_client_id cmd2) (clients (server w2)) = Some ws).
  { unfold w2. fold w1. rewrite (handler_carries w1 st2 ws cmd2 H2). cbn.
    apply handle_command_keeps_live; [by apply dict_set_wf|apply dict_get_set_eq|done]. }
  assert (Hr : registered w2 !! ws = Some (cmd_client_id cmd2)).
  { unfold w2. fold w1. rewrite (handler_carries w1 st2 ws cmd2 H2). cbn.
    by rewrite lookup_insert_eq. }
  unfold handler_close. cbn.
  rewrite Hr, (carries_client_id _ _ _ H2), Hg22, Nat.eqb_refl. cbn. split.
  - apply elem_of_dict_get; [by apply dict_pop_wf|].
    apply (dict_pop_keeps_others _ _ _ _ Hg22); [by apply dict_get_elem_of|congruence].
  - by apply dict_get_pop_eq.
Qed.

(** X15 at work: connection 1 speaks as "a" and then as "b", and closes. *)
Lemma close_leaves_earlier_id_registered_witness :
  let st2 := recv 1 (envelope "b" "e1" "CHAT" [("text", JStr "hi")]) in
  let w2 := (handler (handler boot join_ann).1 st2).1 in
  clients (server w2) = [("a", 1%nat); ("b", 1%nat)]
  ∧ dict_get "a" (clients (server (handler_close w2 1))) = Some 1%nat
  ∧ dict_get "b" (clients (server (handler_close w2 1))) = None.
Proof.
  intros st2 w2. split; [vm_compute; reflexivity|].
  apply (close_leaves_earlier_id_registered boot join_ann st2 1%nat _ _
           (NoDup_nil_2 : dict_wf (clients (server boot)))
           (ex_intro _ _ (conj eq_refl (conj eq_refl eq_refl)))
           (ex_intro _ _ (conj eq_refl (conj eq_refl eq_refl))));
    first [ discriminate | reflexivity ].
Defined.

(** * The client, and the client against the server *)

(** ** Strings *)

Lemma lstrip_empty_iff s : lstrip s = "" <-> blank s = true.
Proof.
  induction s as [|a s IH]; cbn; [done|].
  destruct (is_space a); cbn; [done|]. split; discriminate.
Qed.

Lemma rstrip_empty_iff s : rstrip s = "" <-> blank s = true.
Proof.
  induction s as [|a s IH]; cbn; [done|].
  destruct (rstrip s) eqn:Hr.
  - destruct (is_space a); cbn; [tauto|]. split; discriminate.
  - split; [discriminate|]. intros [_ Hb]%andb_true_iff. apply IH in Hb. discriminate.
Qed.

Lemma blank_lstrip s : blank (lstrip s) = blank s.
Proof. induction s as [|a s IH]; cbn; [done|]. by destruct (is_space a) eqn:Ha; cbn; rewrite ?Ha. Qed.

Lemma strip_empty_iff s : strip s = "" <-> blank s = true.
Proof. unfold strip. by rewrite rstrip_empty_iff, blank_lstrip. Qed.

Lemma rstrip_cons a s :
  rstrip (String a s)
  = match rstrip s with
    | EmptyString => if is_space a then EmptyString else String a EmptyString
    | r => String a r
    end.
Proof. done. Qed.

Lemma rstrip_idem s : rstrip (rstrip s) = rstrip s.
Proof.
  induction s as [|a s IH]; [done|]. rewrite rstrip_cons.
  destruct (rstrip s) as [|b r] eqn:Hr.
  - destruct (is_space a) eqn:Ha; [done|]. rewrite rstrip_cons. cbn. by rewrite Ha.
  - rewrite rstrip_cons, IH. done.
Qed.

Lemma rstrip_keeps_head a r :
  is_space a = false -> exists r', rstrip (String a r) = String a r'.
Proof. intros Ha. rewrite rstrip_cons. destruct (rstrip r); rewrite ?Ha; by eexists. Qed.

Lemma strip_idem s : strip (strip s) = strip s.
Proof.
  unfold strip. destruct (lstrip s) as [|a r] eqn:Hl; [done|].
  pose proof (lstrip_head _ _ _ Hl) as Ha.
  destruct (rstrip_keeps_head a r Ha) as [r' Hr]. rewrite Hr.
  cbn [lstrip]. rewrite Ha, <-Hr. apply rstrip_idem.
Qed.

Lemma rstrip_app_blank p r : blank r = true -> rstrip (p +:+ r) = rstrip p.
Proof.
  intros Hr. induction p as [|a p IH]; [by apply rstrip_empty_iff|].
  change (String a p +:+ r) with (String a (p +:+ r)).
  by rewrite (rstrip_cons a (p +:+ r)), IH.
Qed.

Lemma string_length_app p r : String.length (p +:+ r) = (String.length p + String.length r)%nat.
Proof.
  induction p as [|a p IH]; [done|].
  change (S (String.length (p +:+ r)) = S (String.length p + String.length r)).
  by f_equal.
Qed.

Lemma startswith_app s p :
  Client.startswith s p = true -> s = p +:+ Client.drop_chars (String.length p) s.
Proof.
  revert s. induction p as [|a p IH]; intros s Hs; [by destruct s|].
  destruct s as [|b s]; [done|].
  change (Ascii.eqb a b && Client.startswith s p = true) in Hs.
  apply andb_true_iff in Hs as [Hab Hs]. apply Ascii.eqb_eq in Hab as ->.
  change (String b s = String b (p +:+ Client.drop_chars (String.length p) s)).
  f_equal. by apply IH.
Qed.

(** What follows a prefix that ends in whitespace, in a stripped line, is
    not blank. *)
Lemma after_prefix_not_blank l p :
  Client.startswith (strip l) p = true ->
  (String.length (rstrip p) < String.length p)%nat ->
  strip (Client.drop_chars (String.length p) (strip l)) ≠ "".
Proof.
  intros Hp Hlen Hblank%strip_empty_iff.
  apply startswith_app in Hp.
  assert (rstrip (strip l) = strip l) as Hfix by apply rstrip_idem.
  rewrite Hp in Hfix at 1. rewrite rstrip_app_blank in Hfix by done.
  rewrite Hp in Hfix. apply (f_equal String.length) in Hfix.
  rewrite string_length_app in Hfix. lia.
Qed.

Lemma split_from_nonempty cur s w :
  w ∈ Client.split_from cur s -> w ≠ "".
Proof.
  revert cur. induction s as [|a s IH]; intros cur; cbn.
  - destruct (nonempty cur) eqn:Hc; [|by intros ?%elem_of_nil].
    intros ->%list_elem_of_singleton. by apply nonempty_true_iff.
  - destruct (is_space a); [|by apply IH].
    destruct (nonempty cur) eqn:Hc; [|by apply IH].
    intros [->|?]%elem_of_cons; [by apply nonempty_true_iff | by eapply IH].
Qed.

(** ** [receiver] *)

Lemma type_is_one o t1 t2 :
  Client.type_is o t1 = true -> Client.type_is o t2 = true -> t1 = t2.
Proof.
  unfold Client.type_is. destruct (dict_get "type" o) as [[| | | |t| |]|]; try done.
  intros <-%String.eqb_eq <-%String.eqb_eq. done.
Qed.

Lemma receiver_spec st raws :
  Forall (fun raw => raw = None ∨ exists o, raw = Some (JObj o)) raws ->
  (Client.receiver st raws).2 = true
  ∧ length (Client.receiver st raws).1.2 = length raws
  ∧ Client.name (Client.receiver st raws).1.1 = Client.name st
  ∧ Client.last_seq_seen st <= Client.last_seq_seen (Client.receiver st raws).1.1
  ∧ (forall raw q, raw ∈ raws -> event_with_seq raw q ->
       q <= Client.last_seq_seen (Client.receiver st raws).1.1)
  ∧ (Client.last_seq_seen (Client.receiver st raws).1.1 = Client.last_seq_seen st
     ∨ exists raw, raw ∈ raws
         ∧ event_with_seq raw (Client.last_seq_seen (Client.receiver st raws).1.1)).
Proof.
  intros Hraws. revert st. induction Hraws as [|raw raws Hraw _ IH]; intros st.
  { cbn. split_and!; [done|done|done|lia| |by left].
    intros ?? Hin. by apply elem_of_nil in Hin. }
  cbn [Client.receiver].
  assert (exists st1 line,
            Client.receive st raw = Some (st1, line)
            ∧ Client.name st1 = Client.name st
            ∧ Client.last_seq_seen st <= Client.last_seq_seen st1
            ∧ (forall q, event_with_seq raw q -> q <= Client.last_seq_seen st1)
            ∧ (Client.last_seq_seen st1 = Client.last_seq_seen st
               ∨ event_with_seq raw (Client.last_seq_seen st1)))
    as (st1 & line & -> & Hn & Hle & Hev & Hor).
  { destruct Hraw as [->|[o ->]]; cbn.
    { eexists _, _. split_and!; [reflexivity|reflexivity|lia| |by left].
      by intros q (o & ? & _). }
    destruct (Client.type_is o "error") eqn:Herr.
    { eexists _, _. split_and!; [reflexivity|reflexivity|lia| |by left].
      intros q (o' & [= <-] & Hev & _). by pose proof (type_is_one _ _ _ Herr Hev). }
    destruct (Client.type_is o "event") eqn:Hevt.
    2:{ eexists _, _. split_and!; [reflexivity|reflexivity|lia| |by left].
        intros q (o' & [= <-] & Hev & _). congruence. }
    destruct (dict_get "seq" o ≫= as_int) as [q0|] eqn:Hq.
    2:{ eexists _, _. split_and!; [reflexivity|reflexivity|lia| |by left].
        intros q (o' & [= <-] & _ & Hq'). congruence. }
    eexists _, _. split_and!; [reflexivity|reflexivity|cbn; lia| |].
    - intros q (o' & [= <-] & _ & Hq'). cbn. simplify_eq. lia.
    - cbn. destruct (Z.max_spec (Client.last_seq_seen st) q0) as [[_ ->]|[_ ->]]; [|by left].
      right. by exists o. }
  destruct (IH st1) as (Ha & Hlen & Hn' & Hle' & Hev' & Hor').
  destruct (Client.receiver st1 raws) as [[st2 lines] alive]. cbn in *.
  split_and!; [done|by rewrite Hlen|congruence|lia| |].
  - intros raw' q [->|Hin]%elem_of_cons Hq; [|by eauto].
    specialize (Hev q Hq). lia.
  - destruct Hor' as [Heq|(raw' & Hin & Hq)].
    + rewrite Heq. destruct Hor as [->|Hq]; [by left|].
      right. exists raw. split; [left | done].
    + right. exists raw'. split; [by right | done].
Qed.

(** X16.  On messages that are objects or undecodable, [receiver] keeps
    running, prints one line per message and never touches the client's
    name; [last_seq_seen] ends as the maximum of its old value and the
    integer [seq] of every event received: it never goes down, it is at
    least the [seq] of each event, and it is the old value or the [seq] of
    some event. *)
Theorem receiver_tracks_highest_seq st raws :
  Forall (fun raw => raw = None ∨ exists o, raw = Some (JObj o)) raws ->
  (Client.receiver st raws).2 = true
  ∧ length (Client.receiver st raws).1.2 = length raws
  ∧ Client.name (Client.receiver st raws).1.1 = Client.name st
  ∧ Client.last_seq_seen st <= Client.last_seq_seen (Client.receiver st raws).1.1
  ∧ (forall raw q, raw ∈ raws -> event_with_seq raw q ->
       q <= Client.last_seq_seen (Client.receiver st raws).1.1)
  ∧ (Client.last_seq_seen (Client.receiver st raws).1.1 = Client.last_seq_seen st
     ∨ exists raw, raw ∈ raws
         ∧ event_with_seq raw (Client.last_seq_seen (Client.receiver st raws).1.1)).
Proof. apply receiver_spec. Qed.

(** X16 at work: events 3 and 2, an error and garbage leave 3. *)
Lemma receiver_tracks_highest_seq_witness :
  let raws := [Some (JObj [("type", JStr "event"); ("seq", JInt 3)]);
               Some (JObj [("type", JStr "error"); ("message", JStr "no")]);
               None;
               Some (JObj [("type", JStr "event"); ("seq", JInt 2)])] in
  Client.last_seq_seen (Client.receiver Client.initial raws).1.1 = 3
  ∧ (Client.receiver Client.initial raws).2 = true.
Proof.
  intros raws. split; [reflexivity|].
  apply (receiver_tracks_highest_seq Client.initial raws).
  unfold raws. repeat first [apply Forall_nil_2 | apply Forall_cons_2];
    first [by left | right; by eexists].
Defined.

(** X17.  A value that decodes to something other than an object stops
    [receiver]: nothing after it is processed. *)
Theorem receiver_stops_at_non_object st before v after :
  Forall (fun raw => raw = None ∨ exists o, raw = Some (JObj o)) before ->
  (forall o, v ≠ JObj o) ->
  (Client.receiver st (before ++ Some v :: after)).2 = false
  ∧ (Client.receiver st (before ++ Some v :: after)).1
    = (Client.receiver st before).1.
Proof.
  intros Hb Hv. revert st. induction Hb as [|raw before Hraw _ IH]; intros st.
  { cbn. destruct v; try done. by destruct (Hv items). }
  cbn [Client.receiver app].
  destruct (Client.receive st raw) as [[st1 line]|] eqn:Hr.
  - destruct (IH st1) as [H1 H2].
    destruct (Client.receiver st1 (before ++ Some v :: after)) as [[st2 lines] alive].
    destruct (Client.receiver st1 before) as [[st3 lines3] alive3]. cbn in *.
    by simplify_eq.
  - exfalso. destruct Hraw as [->|[o ->]]; cbn in Hr; [done|]. by repeat case_match.
Qed.

(** X17 at work: a JSON list between two events. *)
Lemma receiver_stops_at_non_object_witness :
  let ev q := Some (JObj [("type", JStr "event"); ("seq", JInt q)]) in
  (Client.receiver Client.initial ([ev 1] ++ Some (JArr []) :: [ev 5])).2 = false
  ∧ Client.last_seq_seen (Client.receiver Client.initial ([ev 1] ++ Some (JArr []) :: [ev 5])).1.1
    = 1.
Proof.
  intros ev.
  destruct (receiver_stops_at_non_object Client.initial [ev 1] (JArr []) [ev 5]) as [H1 H2].
  - repeat first [apply Forall_nil_2 | apply Forall_cons_2]. right; by eexists.
  - discriminate.
  - split; [exact H1|]. rewrite H2. reflexivity.
Defined.

(** ** The client behind a connection *)

Lemma handle_command_well_shaped up entropy s cmd :
  Forall well_shaped (handle_command up entropy s cmd).2.
Proof.
  destruct (handle_command_outcome up entropy s cmd) as [?|m ? ?|pl ? ?]; cbn.
  - constructor.
  - unfold send_error_to. destruct (dict_get _ _); repeat constructor.
  - repeat constructor.
Qed.

Lemma handler_well_shaped w st : Forall well_shaped (handler w st).2.
Proof.
  unfold handler. destruct (inp st) as [ws [obj|]|ws]; cbn; [| |constructor].
  - unfold handler_message. destruct (validate_command obj).
    { destruct (up st ws); repeat constructor. }
    destruct (command_of obj) as [cmd|]; [|constructor].
    pose proof (handle_command_well_shaped (up st) (entropy st)
                  (set_clients (server w) (dict_set (cmd_client_id cmd) ws (clients (server w))))
                  cmd) as H.
    by destruct (handle_command _ _ _ _).
  - destruct (up st ws); repeat constructor.
Qed.

Lemma run_well_shaped w steps : Forall well_shaped (run w steps).2.
Proof.
  revert w. induction steps as [|st steps IH]; intros w; cbn; [constructor|].
  pose proof (handler_well_shaped w st) as H1. destruct (handler w st) as [w1 e1].
  specialize (IH w1). destruct (run w1 steps) as [w2 e2]. cbn in *.
  by apply Forall_app.
Qed.

Lemma delivered_event_seq ws tr e :
  Forall well_shaped tr -> MEvent e ∈ delivered ws tr -> ev_seq e ∈ broadcast_seqs tr.
Proof.
  induction 1 as [|x tr Hx _ IH]; [by intros ?%elem_of_nil|].
  unfold delivered. cbn [flat_map]. fold (delivered ws tr).
  intros [Hin|Hin]%elem_of_app.
  - destruct x as [ws' [|] ok|cid ws' [|] ok|[e'|] atts]; cbn in Hx; try done.
    + cbn in Hin. destruct (ok && Nat.eqb ws' ws); [|by apply elem_of_nil in Hin].
      by apply list_elem_of_singleton in Hin.
    + cbn in Hin. destruct (ok && Nat.eqb ws' ws); [|by apply elem_of_nil in Hin].
      by apply list_elem_of_singleton in Hin.
    + cbn. assert (e = e') as ->; [|left].
      cbn in Hin. apply list_elem_of_In, in_flat_map in Hin as (a & _ & Ha).
      destruct (a.2 && Nat.eqb a.1.2 ws); [|done].
      destruct Ha as [[= ->]|[]]. done.
  - specialize (IH Hin). destruct x as [| |[]]; cbn; try done. by right.
Qed.

Lemma event_with_seq_wire m q :
  event_with_seq (Some (wire m)) q <-> exists e, m = MEvent e ∧ ev_seq e = q.
Proof.
  split.
  - intros (o & Ho & Ht & Hq). destruct m as [e|msg]; cbn in Ho; simplify_eq;
      try discriminate.
    cbn in Hq. exists e. split; [done | congruence].
  - intros (e & -> & <-). by eexists.
Qed.

(** X18.  A client that has received what the server delivered on its
    connection, over any run from boot, is still running and never ahead of
    the server: its [last_seq_seen] is at most the server's counter, it is
    at least the [seq] of every event delivered, and it is 0 or the [seq] of
    one of them. *)
Theorem client_never_ahead_of_server steps ws :
  let w := (run boot steps).1 in
  let got := delivered ws (run boot steps).2 in
  let r := Client.receiver Client.initial (map (fun m => Some (wire m)) got) in
  r.2 = true
  ∧ 0 <= Client.last_seq_seen r.1.1 <= seq (server w)
  ∧ (forall e, MEvent e ∈ got -> ev_seq e <= Client.last_seq_seen r.1.1)
  ∧ (Client.last_seq_seen r.1.1 = 0
     ∨ exists e, MEvent e ∈ got ∧ ev_seq e = Client.last_seq_seen r.1.1).
Proof.
  intros w got r.
  destruct (receiver_spec Client.initial (map (fun m => Some (wire m)) got))
    as (Ha & _ & _ & Hle & Hev & Hor).
  { apply Forall_forall. intros raw (m & -> & _)%list_elem_of_fmap.
    right. destruct m; by eexists. }
  fold r in Ha, Hle, Hev, Hor. cbn in Hle.
  assert (Hor' : Client.last_seq_seen r.1.1 = 0
                 ∨ exists e, MEvent e ∈ got ∧ ev_seq e = Client.last_seq_seen r.1.1).
  { destruct Hor as [?|(raw & (m & -> & Hm)%list_elem_of_fmap & Hq)]; [by left|].
    apply event_with_seq_wire in Hq as (e & -> & Hq). right. by exists e. }
  split_and!; [done|done| | |done].
  - destruct Hor' as [->|(e & Hin & <-)].
    { destruct (run_seq_invariant steps) as (_ & _ & Hseq & _). cbn zeta in Hseq.
      fold w in Hseq. lia. }
    apply (delivered_event_seq ws _ e (run_well_shaped boot steps)) in Hin.
    destruct (run_seq_invariant steps) as (_ & Hbound & _). cbn zeta in Hbound.
    rewrite Forall_forall in Hbound. by destruct (Hbound _ Hin).
  - intros e Hin. apply (Hev (Some (wire (MEvent e)))).
    + by apply (list_elem_of_fmap_2 (fun m => Some (wire m))) in Hin.
    + apply event_with_seq_wire. by exists e.
Qed.

(** ** What the client sends *)

(** X19.  The message [send_cmd] builds always holds the four fields
    [handle_command] reads, and it passes the server's envelope check exactly
    when the client id, the event id and the command name are not empty. *)
Theorem sent_envelope_passes_iff cid eid command payload :
  command_of (Client.send_cmd cid eid command payload)
  = Some {| cmd_client_id := cid; cmd_event_id := eid;
            cmd_command := command; cmd_payload := payload |}
  ∧ (validate_command (Client.send_cmd cid eid command payload) = None
     <-> cid ≠ "" ∧ eid ≠ "" ∧ command ≠ "").
Proof.
  split; [reflexivity|].
  unfold Client.send_cmd, validate_command, nonempty_str. cbn -[nonempty].
  rewrite <-!nonempty_true_iff.
  destruct (nonempty cid), (nonempty eid), (nonempty command); cbn; split;
    try done; intros (? & ? & ?); done.
Qed.

(** X19 at work: a client started with an empty client id is refused. *)
Lemma sent_envelope_passes_iff_witness :
  validate_command (Client.send_cmd "" "e1" "CHAT" [("text", JStr "hi")])
  = Some "Missing/invalid client_id."
  ∧ validate_command (Client.send_cmd "a" "e1" "CHAT" [("text", JStr "hi")]) = None.
Proof.
  split; [reflexivity|].
  apply (proj2 (sent_envelope_passes_iff "a" "e1" "CHAT" [("text", JStr "hi")])).
  split_and!; discriminate.
Defined.

Lemma join_prefix_shorter : (String.length (rstrip "/join ") < String.length "/join ")%nat.
Proof. vm_compute. lia. Qed.

Lemma chat_prefix_shorter : (String.length (rstrip "/chat ") < String.length "/chat ")%nat.
Proof. vm_compute. lia. Qed.

Lemma split_word_nonempty s w : w ∈ Client.split s -> nonempty w = true.
Proof. intros Hw. by apply nonempty_true_iff, (split_from_nonempty "" s). Qed.

(** The commands [user_line] can send, with what is known of each. *)
Lemma user_line_sends int st line command payload :
  (Client.user_line int st line).2 = Client.Send command payload ->
  (exists nm, command = "JOIN" ∧ payload = [("name", JStr nm)]
              ∧ strip nm = nm ∧ nm ≠ ""
              ∧ Client.name (Client.user_line int st line).1 = Some nm)
  ∨ (exists text, command = "CHAT" ∧ payload = [("text", JStr text)]
                  ∧ strip text = text ∧ text ≠ "")
  ∨ (exists n, command = "ROLL_DICE" ∧ payload = [("sides", JInt n)])
  ∨ (exists t x y, command = "MOVE_TOKEN"
                   ∧ payload = [("token_id", JStr t); ("x", JInt x); ("y", JInt y)]
                   ∧ t ≠ "")
  ∨ (exists t d, command = "SET_HP"
                 ∧ payload = [("target_id", JStr t); ("delta", JInt d)] ∧ t ≠ "").
Proof.
  unfold Client.user_line.
  destruct (nonempty line); cbn [negb]; [|done].
  destruct (nonempty (strip line)); cbn [negb]; [|done].
  destruct (Client.startswith (strip line) "/quit"); [done|].
  destruct (Client.startswith (strip line) "/join ") eqn:Hj.
  { cbn. intros [= <- <-]. left. eexists. split_and!; try done.
    - apply strip_idem.
    - apply (after_prefix_not_blank line "/join " Hj join_prefix_shorter). }
  destruct (Client.startswith (strip line) "/chat ") eqn:Hc.
  { cbn. intros [= <- <-]. right; left. eexists. split_and!; try done.
    - apply strip_idem.
    - apply (after_prefix_not_blank line "/chat " Hc chat_prefix_shorter). }
  destruct (Client.startswith (strip line) "/roll ").
  { destruct (int _); cbn; [|done]. intros [= <- <-]. right; right; left. by eexists. }
  destruct (Client.startswith (strip line) "/move ").
  { destruct (Client.split (strip line)) as [|w0 [|t [|px [|py [|]]]]] eqn:Hs; try done.
    destruct (int px); [|done]. destruct (int py); [|done]. cbn. intros [= <- <-].
    right; right; right; left. eexists _, _, _. split_and!; try done.
    apply nonempty_true_iff, (split_word_nonempty (strip line)). rewrite Hs. right; left. }
  destruct (Client.startswith (strip line) "/hp "); [|done].
  destruct (Client.split (strip line)) as [|w0 [|t [|pd [|w3 [|]]]]] eqn:Hs; try done.
  destruct (int pd); [|done]. cbn. intros [= <- <-].
  right; right; right; right. eexists _, _. split_and!; try done.
  apply nonempty_true_iff, (split_word_nonempty (strip line)). rewrite Hs. right; left.
Qed.

(** X20.  Whatever the user types, a command the client sends is one of the
    five the server knows, and its payload passes the server's per-command
    validation, with one exception: a ROLL_DICE passes exactly when the
    number typed lies between 2 and 10000. *)
Theorem typed_commands_pass_validation int st line command payload cid eid :
  (Client.user_line int st line).2 = Client.Send command payload ->
  let cmd := {| cmd_client_id := cid; cmd_event_id := eid;
                cmd_command := command; cmd_payload := payload |} in
  (command ≠ "ROLL_DICE" ∧ valid_payload cmd = true)
  ∨ (command = "ROLL_DICE"
     ∧ exists n, payload = [("sides", JInt n)]
                 ∧ (valid_payload cmd = true <-> 2 <= n <= 10000)).
Proof.
  intros Hs cmd. subst cmd.
  destruct (user_line_sends int st line command payload Hs)
    as [(nm & -> & -> & Hfix & Hne & _)
       |[(text & -> & -> & Hfix & Hne)
       |[(n & -> & ->)
       |[(t & x & y & -> & -> & Hne)
       |(t & d & -> & -> & Hne)]]]].
  - left. split; [done|]. unfold valid_payload. cbn -[strip nonempty].
    rewrite Hfix. by apply nonempty_true_iff.
  - left. split; [done|]. unfold valid_payload. cbn -[strip nonempty].
    rewrite Hfix. by apply nonempty_true_iff.
  - right. split; [done|]. exists n. split; [done|]. unfold valid_payload. cbn.
    rewrite andb_true_iff, !Z.leb_le. done.
  - left. split; [done|]. unfold valid_payload. cbn -[nonempty].
    apply nonempty_true_iff in Hne. rewrite Hne. done.
  - left. split; [done|]. unfold valid_payload. cbn -[nonempty].
    apply nonempty_true_iff in Hne. rewrite Hne. done.
Qed.

(** X20 at work: a move and a roll with too many sides. *)
Lemma typed_commands_pass_validation_witness :
  (Client.user_line decimal Client.initial "/move pawn 3 -4").2
  = Client.Send "MOVE_TOKEN" [("token_id", JStr "pawn"); ("x", JInt 3); ("y", JInt (-4))]
  ∧ valid_payload {| cmd_client_id := "a"; cmd_event_id := "e1"; cmd_command := "MOVE_TOKEN";
                     cmd_payload := [("token_id", JStr "pawn"); ("x", JInt 3);
                                     ("y", JInt (-4))] |} = true.
Proof.
  assert (H : (Client.user_line decimal Client.initial "/move pawn 3 -4").2
    = Client.Send "MOVE_TOKEN" [("token_id", JStr "pawn"); ("x", JInt 3); ("y", JInt (-4))])
    by (vm_compute; reflexivity).
  split; [exact H|].
  destruct (typed_commands_pass_validation decimal Client.initial _ _ _ "a" "e1" H)
    as [[_ Hv]|[Hc _]]; [exact Hv | discriminate].
Defined.

(** X21.  The name the client keeps after [/join] is the name the server
    stores: when the JOIN the client sent is processed (it is no duplicate),
    the player under the client's id carries exactly the client's [name]. *)
Theorem typed_name_is_stored_name int st line payload up entropy s cid eid :
  (Client.user_line int st line).2 = Client.Send "JOIN" payload ->
  let cmd := {| cmd_client_id := cid; cmd_event_id := eid;
                cmd_command := "JOIN"; cmd_payload := payload |} in
  dedup s !! dedup_key cmd = None ->
  exists nm p,
    Client.name (Client.user_line int st line).1 = Some nm
    ∧ players (state (handle_command up entropy s cmd).1) !! cid = Some p
    ∧ name p = nm.
Proof.
  intros Hs cmd Hd.
  destruct (user_line_sends int st line "JOIN" payload Hs)
    as [(nm & _ & Hp & Hfix & Hne & Hn)
       |[(? & ? & _)|[(? & ? & _)|[(? & ? & ? & ? & _)|(? & ? & ? & _)]]]]; try done.
  assert (Hv : valid_payload cmd = true).
  { unfold valid_payload, cmd. rewrite Hp. cbn -[strip nonempty].
    rewrite Hfix. by apply nonempty_true_iff. }
  destruct (handle_command_accepted up entropy s cmd Hd Hv) as [pl ->].
  cbn. unfold apply_effect, cmd. rewrite Hp. cbn -[strip]. rewrite lookup_insert_eq, Hfix.
  exists nm. destruct (players (state s) !! cid); by eexists.
Qed.

(** X21 at work: the user types a padded name. *)
Lemma typed_name_is_stored_name_witness :
  Client.name (Client.user_line decimal Client.initial "/join   Bob").1 = Some "Bob"
  ∧ exists p,
      players (state (handle_command all_up 0 init
                        {| cmd_client_id := "a"; cmd_event_id := "e1"; cmd_command := "JOIN";
                           cmd_payload := [("name", JStr "Bob")] |}).1) !! "a" = Some p
      ∧ name p = "Bob".
Proof.
  split; [reflexivity|].
  destruct (typed_name_is_stored_name decimal Client.initial "/join   Bob" [("name", JStr "Bob")] all_up 0 init "a" "e1" eq_refl eq_refl) as (nm & p & Hn & Hp & Hnm).
  exists p. split; [exact Hp|]. rewrite Hnm. vm_compute in Hn. congruence.
Defined.

(** ** The sender and its own event *)



(** ** The invariants at work *)


(** X9 at work: two clients, one of them reconnecting. *)
Lemma registry_ids_distinct_nonempty_witness :
  clients (server (run boot [join_ann; chat_hi; second_conn]).1)
  = [("a", 2%nat); ("b", 2%nat)]
  ∧ dict_wf (clients (server (run boot [join_ann; chat_hi; second_conn]).1)).
Proof.
  split; [vm_compute; reflexivity|].
  exact (proj1 (registry_ids_distinct_nonempty [join_ann; chat_hi; second_conn])).
Defined.

(** X10 at work: three inputs, of which one is a duplicate. *)
Lemma seq_grows_by_at_most_one_per_input_witness :
  seq (server (run boot [join_ann; join_bob_same_pair; chat_hi]).1) = 2
  ∧ seq (server boot)
    <= seq (server (run boot [join_ann; join_bob_same_pair; chat_hi]).1)
    <= seq (server boot) + 3.
Proof.
  split; [vm_compute; reflexivity|].
  exact (seq_grows_by_at_most_one_per_input boot [join_ann; join_bob_same_pair; chat_hi]).
Defined.

(** X18 at work: connection 2 joins late and sees only the second event. *)
Lemma client_never_ahead_of_server_witness :
  delivered 2 (run boot [join_ann; chat_hi]).2
  = [MEvent {| ev_seq := 2; ev_event_id := "e1"; ev_event_type := "CHAT";
               ev_payload := [("client_id", JStr "b"); ("text", JStr "hi")] |}]
  ∧ Client.last_seq_seen
      (Client.receiver Client.initial
         (map (fun m => Some (wire m)) (delivered 2 (run boot [join_ann; chat_hi]).2))).1.1
    <= seq (server (run boot [join_ann; chat_hi]).1).
Proof.
  split; [vm_compute; reflexivity|].
  exact (proj2 (proj1 (proj2 (client_never_ahead_of_server [join_ann; chat_hi] 2%nat)))).
Defined.
